(** * Smart Inventory Management System: stock updates, audit log, roles

    A shallow embedding of the in-memory services ([MockProductService],
    [MockInventoryLogService]), the role check of [AuthUtils], the
    authorisation middleware, the controllers that write to the stores
    ([InventoryController.updateStock], [ProductController.createProduct],
    [updateProduct], [deleteProduct]) and the routes that call them, followed
    by the properties the specification states about them.

    JavaScript numbers are IEEE-754 binary64 values, which is what Rocq's
    primitive [float] is; dates are their epoch value in milliseconds. *)

From Stdlib Require Import ZArith Floats.
From stdpp Require Import base option list strings pretty gmap sorting.

Set Default Proof Using "Type".
(* Decimal literals denote the nearest binary64 value, as in JavaScript. *)
Set Warnings "-inexact-float".

(** ** JavaScript numbers *)

Abbreviation number := float (only parsing).

Module Num.
(** [a - b] *)
Definition sub (a b : number) : number := PrimFloat.sub a b.
(** [a > b] *)
Definition gt (a b : number) : bool := PrimFloat.ltb b a.
(** [a < b] *)
Definition lt (a b : number) : bool := PrimFloat.ltb a b.
(** [a >= b] *)
Definition ge (a b : number) : bool := PrimFloat.leb b a.
(** [a === b] on numbers: [NaN] differs from itself, [-0 === 0]. *)
Definition eq (a b : number) : bool := PrimFloat.eqb a b.
(** [isNaN(a)] *)
Definition isNaN (a : number) : bool := negb (PrimFloat.eqb a a).
(** [Number.MAX_SAFE_INTEGER], 2^53 - 1. *)
Definition MAX_SAFE_INTEGER : number := 9007199254740991%float.
Definition MIN_SAFE_INTEGER : number := (-9007199254740991)%float.

Global Arguments sub : simpl never.
Global Arguments gt : simpl never.
Global Arguments lt : simpl never.
Global Arguments ge : simpl never.
Global Arguments eq : simpl never.
Global Arguments isNaN : simpl never.
End Num.

(** ** types/index.ts *)

Inductive UserRole := ADMIN | MANAGER | VIEWER.

(** A [Date], as its [getTime()] value. *)
Abbreviation Date := Z (only parsing).

Module IProduct.
Record t := {
  _id : string;
  name : string;
  sku : string;
  price : number;
  category : string;
  stock : number;
  minStock : option number;
  description : option string;
  warehouseId : option string;
  createdAt : Date;
  updatedAt : Date
}.
End IProduct.

(** [Omit<IProduct, '_id' | 'createdAt' | 'updatedAt'>] *)
Module ProductData.
Record t := {
  name : string;
  sku : string;
  price : number;
  category : string;
  stock : number;
  minStock : option number;
  description : option string;
  warehouseId : option string
}.
End ProductData.

(** [Partial<IProduct>]: the keys that are given. *)
Module ProductPatch.
Record t := {
  _id : option string;
  name : option string;
  sku : option string;
  price : option number;
  category : option string;
  stock : option number;
  minStock : option number;
  description : option string;
  warehouseId : option string;
  createdAt : option Date;
  updatedAt : option Date
}.
End ProductPatch.

(** ['add' | 'update' | 'remove'] *)
Inductive Action := add | update | remove.

Definition Action_string (a : Action) : string :=
  match a with add => "add" | update => "update" | remove => "remove" end.

Global Instance Action_eq_dec : EqDecision Action.
Proof. solve_decision. Defined.

Module IInventoryLog.
Record t := {
  _id : string;
  productId : string;
  warehouseId : option string;
  userId : string;
  action : Action;
  previousStock : number;
  newStock : number;
  quantity : number;
  reason : option string;
  timestamp : Date
}.
End IInventoryLog.

(** [Omit<IInventoryLog, '_id' | 'timestamp'>] *)
Module LogData.
Record t := {
  productId : string;
  warehouseId : option string;
  userId : string;
  action : Action;
  previousStock : number;
  newStock : number;
  quantity : number;
  reason : option string
}.
End LogData.

(** ** utils/auth.ts *)

Module AuthUtils.
Definition roleHierarchy (r : UserRole) : Z :=
  match r with
  | VIEWER => 1
  | MANAGER => 2
  | ADMIN => 3
  end.

Definition hasRole (userRole requiredRole : UserRole) : bool :=
  (roleHierarchy userRole >=? roleHierarchy requiredRole)%Z.

(** [requiredRoles.some(role => this.hasRole(userRole, role))] *)
Definition hasAnyRole (userRole : UserRole) (requiredRoles : list UserRole) : bool :=
  existsb (fun role => hasRole userRole role) requiredRoles.
End AuthUtils.

(** The ranking the specification gives in words: Viewer(1) < Manager(2) <
    Admin(3). *)
Definition spec_rank (r : UserRole) : nat :=
  match r with VIEWER => 1 | MANAGER => 2 | ADMIN => 3 end.

(** ** The process state

    Both services are module-level singletons holding an array. The system
    clock is the third piece of state the code reads: [clock n] is the value
    of the [n]-th reading ([Date.now()] or [new Date()]) since start-up and
    [reads] counts the readings taken. Nothing is assumed about the clock,
    so two readings may well return the same millisecond. *)

Record World := {
  products : list IProduct.t;
  logs : list IInventoryLog.t;
  clock : nat → Date;
  reads : nat
}.

Definition M (A : Type) : Type := World → A * World.

Global Instance M_ret : MRet M := λ A (a : A) w, (a, w).
Global Instance M_bind : MBind M := λ A B (f : A → M B) (m : M A) w,
  let '(a, w') := m w in f a w'.

Definition get_products : M (list IProduct.t) := λ w, (products w, w).
Definition set_products (ps : list IProduct.t) : M unit := λ w,
  (tt, {| products := ps; logs := logs w; clock := clock w; reads := reads w |}).
Definition get_logs : M (list IInventoryLog.t) := λ w, (logs w, w).
Definition set_logs (ls : list IInventoryLog.t) : M unit := λ w,
  (tt, {| products := products w; logs := ls; clock := clock w; reads := reads w |}).

(** [Date.now()], and [new Date()] read as its time value. *)
Definition Date_now : M Date := λ w,
  (clock w (reads w),
   {| products := products w; logs := logs w; clock := clock w; reads := S (reads w) |}).

(** ** JavaScript helpers *)

(** [s || d] for an optional string: [undefined] and [''] are falsy. *)
Definition string_or (s : option string) (d : string) : string :=
  match s with
  | None => d
  | Some s' => if decide (s' = "") then d else s'
  end.

(** [x || d] for an optional number: [undefined], [0], [-0] and [NaN] are
    falsy. *)
Definition number_or (x : option number) (d : number) : number :=
  match x with
  | None => d
  | Some x' => if Num.eq x' 0 || Num.isNaN x' then d else x'
  end.


(** [Array.prototype.sort(cmp)] on a fresh array: the sort is stable, an
    element stays before the ones it does not compare greater than. *)
Fixpoint sort_insert {A} (cmp : A → A → Z) (x : A) (l : list A) : list A :=
  match l with
  | [] => [x]
  | y :: l' => if (cmp x y <=? 0)%Z then x :: y :: l' else y :: sort_insert cmp x l'
  end.

Definition Array_sort {A} (cmp : A → A → Z) (l : list A) : list A :=
  foldr (sort_insert cmp) [] l.

(** [l.slice(0, n)]: a negative [n] counts from the end. *)
Definition slice0 {A} (n : Z) (l : list A) : list A :=
  take (Z.to_nat (if (n <? 0)%Z then Z.max (Z.of_nat (length l) + n) 0 else n)) l.



(** [s.includes(needle)] *)
Fixpoint includes (needle s : string) : bool :=
  if String.prefix needle s then true
  else match s with
       | EmptyString => false
       | String _ s' => includes needle s'
       end.

(** ** data: [MockProductService] *)

Module MockProductService.
Import IProduct.

Definition seed (id nm sk : string) (pr : number) (cat : string) (st mn : number)
    (desc wh : string) : IProduct.t :=
  {| _id := id; name := nm; sku := sk; price := pr; category := cat;
     stock := st; minStock := Some mn; description := Some desc;
     warehouseId := Some wh;
     (* new Date('2024-01-01') *)
     createdAt := 1704067200000; updatedAt := 1704067200000 |}.

Definition initial : list IProduct.t := [
  seed "prod_001" "Laptop Dell XPS 15" "DX15-2025" 1200.99 "Electronics" 5 10
    "High-performance laptop for professionals" "wh_main";
  seed "prod_002" "Wireless Mouse" "WM-2025" 25.99 "Electronics" 3 15
    "Ergonomic wireless mouse" "wh_main";
  seed "prod_003" "Office Chair" "OC-2025" 199.99 "Furniture" 25 5
    "Comfortable ergonomic office chair" "wh_main";
  seed "prod_004" "Printer Paper A4" "PP-A4-500" 8.99 "Office Supplies" 150 20
    "500 sheets of premium A4 printer paper" "wh_storage";
  seed "prod_005" "Coffee Maker" "CM-DELUXE" 89.99 "Appliances" 12 8
    "12-cup programmable coffee maker" "wh_main"
].

Definition findAll : M (list IProduct.t) := get_products.

Definition findById (id : string) : M (option IProduct.t) :=
  ps ← get_products;
  mret (snd <$> list_find (λ p, _id p = id) ps).

Definition findBySku (sku' : string) : M (option IProduct.t) :=
  ps ← get_products;
  mret (snd <$> list_find (λ p, sku p = sku') ps).

Definition create (productData : ProductData.t) : M IProduct.t :=
  now ← Date_now;
  created ← Date_now;
  updated ← Date_now;
  let newProduct :=
    {| _id := "prod_" +:+ pretty now;
       name := ProductData.name productData;
       sku := ProductData.sku productData;
       price := ProductData.price productData;
       category := ProductData.category productData;
       stock := ProductData.stock productData;
       minStock := ProductData.minStock productData;
       description := ProductData.description productData;
       warehouseId := ProductData.warehouseId productData;
       createdAt := created;
       updatedAt := updated |} in
  ps ← get_products;
  set_products (ps ++ [newProduct]);;
  mret newProduct.

Definition set_stock (p : IProduct.t) (newStock : number) (now : Date) : IProduct.t :=
  {| _id := _id p; name := name p; sku := sku p; price := price p;
     category := category p; stock := newStock; minStock := minStock p;
     description := description p; warehouseId := warehouseId p;
     createdAt := createdAt p; updatedAt := now |}.

Definition updateStock (id : string) (newStock : number) : M (option IProduct.t) :=
  ps ← get_products;
  match list_find (λ p, _id p = id) ps with
  | None => mret None
  | Some (index, p) =>
      now ← Date_now;
      let p' := set_stock p newStock now in
      set_products (<[index := p']> ps);;
      mret (Some p')
  end.

(** [this.products.splice(index, 1)] *)
Definition delete (id : string) : M bool :=
  ps ← get_products;
  match list_find (λ p, _id p = id) ps with
  | None => mret false
  | Some (index, _) =>
      set_products (take index ps ++ drop (S index) ps);;
      mret true
  end.

Definition count : M nat :=
  ps ← get_products;
  mret (length ps).

(** [product.stock <= (product.minStock || 0)] *)
Definition isLowStock (p : IProduct.t) : bool :=
  Num.ge (number_or (minStock p) 0) (stock p).

Definition findLowStock : M (list IProduct.t) :=
  ps ← get_products;
  mret (List.filter isLowStock ps).

(** [{ ...this.products[index], ...updateData, updatedAt: new Date() }] *)
Definition merge (p : IProduct.t) (updateData : ProductPatch.t) (now : Date)
    : IProduct.t :=
  {| _id := default (_id p) (ProductPatch._id updateData);
     name := default (name p) (ProductPatch.name updateData);
     sku := default (sku p) (ProductPatch.sku updateData);
     price := default (price p) (ProductPatch.price updateData);
     category := default (category p) (ProductPatch.category updateData);
     stock := default (stock p) (ProductPatch.stock updateData);
     minStock := match ProductPatch.minStock updateData with
                 | Some m => Some m
                 | None => minStock p
                 end;
     description := match ProductPatch.description updateData with
                    | Some d => Some d
                    | None => description p
                    end;
     warehouseId := match ProductPatch.warehouseId updateData with
                    | Some wh => Some wh
                    | None => warehouseId p
                    end;
     createdAt := default (createdAt p) (ProductPatch.createdAt updateData);
     updatedAt := now |}.

Definition update (id : string) (updateData : ProductPatch.t)
    : M (option IProduct.t) :=
  ps ← get_products;
  match list_find (λ p, _id p = id) ps with
  | None => mret None
  | Some (index, p) =>
      now ← Date_now;
      let p' := merge p updateData now in
      set_products (<[index := p']> ps);;
      mret (Some p')
  end.
End MockProductService.

(** ** data: [MockInventoryLogService] *)

Module MockInventoryLogService.
Import IInventoryLog.

Definition initial : list IInventoryLog.t := [
  {| _id := "log_001"; productId := "prod_001"; warehouseId := Some "wh_main";
     userId := "user_manager_001"; action := update;
     previousStock := 50; newStock := 45; quantity := -5;
     reason := Some "Sold to customer";
     (* 2024-01-15T10:00:00Z *) timestamp := 1705312800000 |};
  {| _id := "log_002"; productId := "prod_002"; warehouseId := Some "wh_main";
     userId := "user_manager_001"; action := update;
     previousStock := 20; newStock := 15; quantity := -5;
     reason := Some "Inventory adjustment";
     (* 2024-01-14T14:30:00Z *) timestamp := 1705242600000 |};
  {| _id := "log_003"; productId := "prod_003"; warehouseId := Some "wh_main";
     userId := "user_admin_001"; action := add;
     previousStock := 0; newStock := 25; quantity := 25;
     reason := Some "Initial stock";
     (* 2024-01-10T09:00:00Z *) timestamp := 1704877200000 |};
  {| _id := "log_004"; productId := "prod_001"; warehouseId := Some "wh_main";
     userId := "user_manager_001"; action := update;
     previousStock := 45; newStock := 5; quantity := -40;
     reason := Some "Bulk sale";
     (* 2024-01-20T16:45:00Z *) timestamp := 1705769100000 |}
].

(** [(a, b) => b.timestamp.getTime() - a.timestamp.getTime()] *)
Definition newestFirst (a b : IInventoryLog.t) : Z := timestamp b - timestamp a.
(** [(a, b) => a.timestamp.getTime() - b.timestamp.getTime()] *)
Definition oldestFirst (a b : IInventoryLog.t) : Z := timestamp a - timestamp b.

(** Every read below works on [this.logs.map(log => ({ ...log }))] or on a
    [filter] of it, a new array of copies: the [sort] that follows reorders
    that array, never [this.logs]. *)
Definition findAll : M (list IInventoryLog.t) :=
  ls ← get_logs;
  mret (Array_sort newestFirst ls).

Definition findById (id : string) : M (option IInventoryLog.t) :=
  ls ← get_logs;
  mret (snd <$> list_find (λ l, _id l = id) ls).

Definition findByProduct (productId' : string) : M (list IInventoryLog.t) :=
  ls ← get_logs;
  mret (Array_sort newestFirst
          (List.filter (λ l, bool_decide (productId l = productId')) ls)).

(** [log.warehouseId === warehouseId] with a string argument: an entry
    without a warehouse never matches. *)
Definition findByWarehouse (warehouseId' : string) : M (list IInventoryLog.t) :=
  ls ← get_logs;
  mret (Array_sort newestFirst
          (List.filter (λ l, bool_decide (warehouseId l = Some warehouseId')) ls)).

Definition findByUser (userId' : string) : M (list IInventoryLog.t) :=
  ls ← get_logs;
  mret (Array_sort newestFirst
          (List.filter (λ l, bool_decide (userId l = userId')) ls)).

(** [limit] defaults to 10 at the call sites that omit it. *)
Definition findRecent (limit : Z) : M (list IInventoryLog.t) :=
  ls ← get_logs;
  mret (slice0 limit (Array_sort newestFirst ls)).

Definition create (logData : LogData.t) : M IInventoryLog.t :=
  now ← Date_now;
  stamp ← Date_now;
  let newLog :=
    {| _id := "log_" +:+ pretty now;
       productId := LogData.productId logData;
       warehouseId := LogData.warehouseId logData;
       userId := LogData.userId logData;
       action := LogData.action logData;
       previousStock := LogData.previousStock logData;
       newStock := LogData.newStock logData;
       quantity := LogData.quantity logData;
       reason := LogData.reason logData;
       timestamp := stamp |} in
  ls ← get_logs;
  set_logs (ls ++ [newLog]);;
  mret newLog.

Definition createStockUpdate (productId' warehouseId' userId' : string)
    (previousStock' newStock' : number) (reason' : option string)
    : M IInventoryLog.t :=
  let quantity' := Num.sub newStock' previousStock' in
  let action' :=
    if Num.gt quantity' 0 then add
    else if Num.lt quantity' 0 then update
    else update in
  create {| LogData.productId := productId';
            LogData.warehouseId := Some warehouseId';
            LogData.userId := userId';
            LogData.action := action';
            LogData.previousStock := previousStock';
            LogData.newStock := newStock';
            LogData.quantity := quantity';
            LogData.reason := Some (string_or reason' "Stock update") |}.

Definition count : M nat :=
  ls ← get_logs;
  mret (length ls).

(** [cutoffDate.setDate(cutoffDate.getDate() - days)] moves the cutoff back
    in the local calendar of the host, where a day is not always 24 hours
    long. That calendar is the argument [setDateBack]: [setDateBack d days]
    is the time value of the date [d] after [d.setDate(d.getDate() - days)],
    [None] when the date has become invalid ([days] being [NaN] or out of
    range). No entry is [>=] an invalid date. [days] defaults to 30. *)
Definition getStockMovements (setDateBack : Date → number → option Date)
    (productId' : string) (days : number) : M (list IInventoryLog.t) :=
  now ← Date_now;
  let cutoffDate := setDateBack now days in
  ls ← get_logs;
  mret (Array_sort oldestFirst
          (List.filter (λ l, bool_decide (productId l = productId')
                             && match cutoffDate with
                                | Some cutoff => (timestamp l >=? cutoff)%Z
                                | None => false
                                end) ls)).

(** [actionCount[log.action] = (actionCount[log.action] || 0) + 1] *)
Definition getTotalMovementsByAction : M (gmap string nat) :=
  ls ← get_logs;
  mret (foldl (λ (actionCount : gmap string nat) l,
                 let k := Action_string (action l) in
                 <[k := (default 0 (actionCount !! k) + 1)%nat]> actionCount)
              ∅ ls).
End MockInventoryLogService.

(** The order of the lists the service returns: [a] is newer than [b], or as
    old. *)
Definition newerOrSame (a b : IInventoryLog.t) : Prop :=
  (IInventoryLog.timestamp b ≤ IInventoryLog.timestamp a)%Z.

(** ** Requests and responses *)

(** A value of a parsed request body. Arrays and nested objects are kept
    opaque: no schema below accepts one. *)
Inductive JsValue :=
  | JsNull
  | JsBool (b : bool)
  | JsNumber (x : number)
  | JsString (s : string)
  | JsComposite.

(** [req.user], set by [AuthMiddleware.authenticate]. *)
Record AuthUser := { id : string; email : string; role : UserRole }.

(** [req.params.id], [req.body] (always an object after [express.json()]) and
    [req.user]. *)
Record Request := {
  params_id : string;
  body : gmap string JsValue;
  user : option AuthUser
}.

(** What the controller sends: the status and the data of the JSON answer. *)
Inductive Response :=
  | StockUpdated (productId : string) (previousStock updatedStock : number)
      (updatedAt : Date)                         (* 200 *)
  | ProductCreated (product : IProduct.t)        (* 201 *)
  | ValidationError                              (* 400 'Validation error' *)
  | NotFound                                     (* 404 'Product not found' *)
  | Conflict                                     (* 409 *)
  | UpdateFailed                                 (* 500 'Failed to update stock' *)
  | InternalError.                               (* 500, from the catch block *)

Definition status (r : Response) : Z :=
  match r with
  | StockUpdated _ _ _ _ => 200
  | ProductCreated _ => 201
  | ValidationError => 400
  | NotFound => 404
  | Conflict => 409
  | UpdateFailed | InternalError => 500
  end.

(** [{ stock, reason }] as validated. *)
Record UpdateStockValue := { stock : number; reason : option string }.

(** The answer of the other product routes: the status, the message and the
    product sent back, if any. *)
Inductive Reply :=
  | Success (message : string) (data : option IProduct.t)     (* 200 *)
  | Failure (status' : Z) (message : string).

(** ** The receiver of a static method

    [updateStock], [createProduct] and [updateProduct] are static methods
    that read their schema as a field of [this]. Called on the class, as in
    [InventoryController.updateStock(req, res)], [this] is the class. Called
    as a plain function, as in [const fn = InventoryController.updateStock;
    fn(req, res)], [this] is [undefined], a class body being strict code. *)
Inductive Receiver := ThisClass | ThisUndefined.

(** [this.field], where [field] is a static field of the class: reading a
    field of [undefined] throws a [TypeError], for which [None] stands. *)
Definition this_field {A} (this : Receiver) (field : A) : option A :=
  match this with
  | ThisClass => Some field
  | ThisUndefined => None
  end.

(** What a route sends: the answer of a middleware that refused the
    request, or the answer of the handler. *)
Inductive Answer (R : Type) :=
  | Refused (status' : Z) (message : string)
  | Handled (r : R).
Global Arguments Refused {R} status' message.
Global Arguments Handled {R} r.

(** ** middlewares/authMiddleware.ts *)

Module AuthMiddleware.
(** What a middleware does with a request: hand it on, or answer it. *)
Inductive Outcome :=
  | Next
  | Reject (status' : Z) (message : string).

Definition authorize (requiredRole : UserRole) (req : Request) : Outcome :=
  match user req with
  | None => Reject 401 "Authentication required"
  | Some u =>
      if AuthUtils.hasRole (role u) requiredRole then Next
      else Reject 403 "Insufficient permissions"
  end.

Definition authorizeAny (requiredRoles : list UserRole) (req : Request) : Outcome :=
  match user req with
  | None => Reject 401 "Authentication required"
  | Some u =>
      if AuthUtils.hasAnyRole (role u) requiredRoles then Next
      else Reject 403 "Insufficient permissions"
  end.

Definition requireAdmin := authorize ADMIN.
Definition requireManager := authorize MANAGER.
Definition requireViewer := authorize VIEWER.
Definition requireManagerOrAdmin := authorizeAny [MANAGER; ADMIN].
Definition requireViewerOrHigher := authorizeAny [VIEWER; MANAGER; ADMIN].
End AuthMiddleware.

(** ** middlewares/errorHandler.ts *)

Module ErrorHandler.
(** An [Error]: its [name] and its [message]. *)
Record JsError := { name : string; message : string }.

(** The status and the message of the answer. *)
Definition handle (err : JsError) : Z * string :=
  if decide (name err = "ValidationError") then (400%Z, "Validation error")
  else if decide (name err = "CastError") then (400%Z, "Invalid data format")
  else if includes "not found" (message err) then (404%Z, message err)
  else if includes "unauthorized" (message err) || includes "forbidden" (message err)
    then (403%Z, message err)
  else (500%Z, "Internal server error").

(** [new Error(`Route ${req.originalUrl} not found`)], passed to [next]. *)
Definition notFound (originalUrl : string) : JsError :=
  {| name := "Error"; message := "Route " +:+ originalUrl +:+ " not found" |}.

(** [asyncHandler(fn)] is the handler
    [(req, res, next) => { Promise.resolve(fn(req, res, next)).catch(next) }]:
    it calls [fn] as a plain function, so that [fn] runs with [this]
    undefined. The controllers below catch what they throw and answer
    themselves; none of their promises is rejected. *)
Definition asyncHandler {R} (fn : Receiver → Request → M R) (req : Request) : M R :=
  fn ThisUndefined req.
End ErrorHandler.

Section Controllers.

(** Joi converts a string to a number when it matches Joi's number
    pattern ([convert] is on by default); [numberOfString] is that
    conversion, [None] when the string is not accepted as a number. *)
Variable numberOfString : string → option number.

(** The local calendar of the host, which [getStockMovements] consults. *)
Variable setDateBack : Date → number → option Date.

(** *** Joi 17 schemas

    For each schema, [Some v] is the validated value and [None] stands for
    a validation error; the controllers only look at whether there is one. *)

(** [Joi.number()] first takes a number as it is and converts a string. *)
Definition Joi_number_coerce (v : JsValue) : option number :=
  match v with
  | JsNumber x => Some x
  | JsString s => numberOfString s
  | _ => None                                               (* number.base *)
  end.

(** [Joi.number().min(0)] on a value that is present. *)
Definition Joi_number_min0 (v : JsValue) : option number :=
  x ← Joi_number_coerce v;
  if Num.isNaN x then None                                  (* number.base *)
  else if Num.eq x infinity || Num.eq x neg_infinity then None
                                                            (* number.infinity *)
  else if Num.gt x Num.MAX_SAFE_INTEGER || Num.lt x Num.MIN_SAFE_INTEGER
    then None                                               (* number.unsafe *)
  else
    let x' := if Num.eq x 0 then 0%float else x in          (* -0 becomes 0 *)
    if Num.ge x' 0 then Some x' else None.                  (* number.min *)

(** [Joi.string()], also with [.min(1)]: a string, and not the empty one. *)
Definition Joi_string (v : JsValue) : option string :=
  match v with
  | JsString s => if decide (s = "") then None else Some s
  | _ => None
  end.

(** [.required()] and [.optional()] on a key of the body. *)
Definition required {A} (schema : JsValue → option A) (field : option JsValue)
    : option A :=
  field ≫= schema.

Definition optional {A} (schema : JsValue → option A) (field : option JsValue)
    : option (option A) :=
  match field with
  | None => Some None
  | Some v => Some <$> schema v
  end.

(** [Joi.object({...})] rejects a key that the schema does not list. *)
Definition only_keys (keys : list string) (o : gmap string JsValue) : bool :=
  bool_decide (map_Forall (λ k _, k ∈ keys) o).

Definition updateStockSchema (o : gmap string JsValue) : option UpdateStockValue :=
  if only_keys ["stock"; "reason"] o then
    stock' ← required Joi_number_min0 (o !! "stock");
    reason' ← optional Joi_string (o !! "reason");
    Some {| stock := stock'; reason := reason' |}
  else None.

Definition productSchema (o : gmap string JsValue) : option ProductData.t :=
  if only_keys ["name"; "sku"; "price"; "category"; "stock"; "minStock";
                "description"; "warehouseId"] o then
    name' ← required Joi_string (o !! "name");
    sku' ← required Joi_string (o !! "sku");
    price' ← required Joi_number_min0 (o !! "price");
    category' ← required Joi_string (o !! "category");
    stock' ← required Joi_number_min0 (o !! "stock");
    minStock' ← optional Joi_number_min0 (o !! "minStock");
    description' ← optional Joi_string (o !! "description");
    warehouseId' ← optional Joi_string (o !! "warehouseId");
    Some {| ProductData.name := name'; ProductData.sku := sku';
            ProductData.price := price'; ProductData.category := category';
            ProductData.stock := stock'; ProductData.minStock := minStock';
            ProductData.description := description';
            ProductData.warehouseId := warehouseId' |}
  else None.

(** *** controllers: [ProductController.createProduct]

    The body of the method is one [try] block, and its first statement reads
    [this.productSchema]. When that throws, nothing has been done yet, and
    the [catch] block answers 500 'Internal server error'. *)

Definition ProductController_createProduct (this : Receiver) (req : Request)
    : M Response :=
  match this_field this productSchema with
  | None => mret InternalError                                      (* catch *)
  | Some schema =>
      match schema (body req) with
      | None => mret ValidationError
      | Some value =>
          existingProduct ← MockProductService.findBySku (ProductData.sku value);
          match existingProduct with
          | Some _ => mret Conflict
          | None =>
              product ← MockProductService.create value;
              mret (ProductCreated product)
          end
      end
  end.

(** *** controllers: [InventoryController.updateStock]

    Two statements of the [try] block may throw, and the [catch] block then
    answers 500 'Internal server error'. The first is the read of
    [this.updateStockSchema], before anything is done. The second is
    [req.user!.id], evaluated with the arguments of [createStockUpdate]
    after the product has been written. *)

Definition InventoryController_updateStock (this : Receiver) (req : Request)
    : M Response :=
  let id' := params_id req in
  match this_field this updateStockSchema with
  | None => mret InternalError                                      (* catch *)
  | Some schema =>
      match schema (body req) with
      | None => mret ValidationError
      | Some value =>
          let newStock := stock value in
          product ← MockProductService.findById id';
          match product with
          | None => mret NotFound
          | Some product =>
              let previousStock := IProduct.stock product in
              updatedProduct ← MockProductService.updateStock id' newStock;
              match updatedProduct with
              | None => mret UpdateFailed
              | Some updatedProduct =>
                  match user req with
                  | None => mret InternalError                      (* catch *)
                  | Some u =>
                      MockInventoryLogService.createStockUpdate
                        id' (string_or (IProduct.warehouseId product) "") (id u)
                        previousStock newStock (reason value);;
                      mret (StockUpdated id' previousStock newStock
                              (IProduct.updatedAt updatedProduct))
                  end
              end
          end
      end
  end.

(** *** controllers: [ProductController.updateProduct], [deleteProduct] *)

Definition updateProductSchema (o : gmap string JsValue) : option ProductPatch.t :=
  if only_keys ["name"; "sku"; "price"; "category"; "stock"; "minStock";
                "description"; "warehouseId"] o then
    name' ← optional Joi_string (o !! "name");
    sku' ← optional Joi_string (o !! "sku");
    price' ← optional Joi_number_min0 (o !! "price");
    category' ← optional Joi_string (o !! "category");
    stock' ← optional Joi_number_min0 (o !! "stock");
    minStock' ← optional Joi_number_min0 (o !! "minStock");
    description' ← optional Joi_string (o !! "description");
    warehouseId' ← optional Joi_string (o !! "warehouseId");
    Some {| ProductPatch._id := None; ProductPatch.name := name';
            ProductPatch.sku := sku'; ProductPatch.price := price';
            ProductPatch.category := category'; ProductPatch.stock := stock';
            ProductPatch.minStock := minStock';
            ProductPatch.description := description';
            ProductPatch.warehouseId := warehouseId';
            ProductPatch.createdAt := None; ProductPatch.updatedAt := None |}
  else None.

(** [value.sku && value.sku !== existingProduct.sku] *)
Definition skuChanges (value : ProductPatch.t) (existingProduct : IProduct.t) : bool :=
  match ProductPatch.sku value with
  | None => false
  | Some s => bool_decide (s ≠ "") && bool_decide (s ≠ IProduct.sku existingProduct)
  end.

(** The first statement after [const { id } = req.params] reads
    [this.updateProductSchema]; the [catch] block answers what it throws
    with 500 'Internal server error'. *)
Definition ProductController_updateProduct (this : Receiver) (req : Request)
    : M Reply :=
  let id' := params_id req in
  match this_field this updateProductSchema with
  | None => mret (Failure 500 "Internal server error")              (* catch *)
  | Some schema =>
      match schema (body req) with
      | None => mret (Failure 400 "Validation error")
      | Some value =>
          existingProduct ← MockProductService.findById id';
          match existingProduct with
          | None => mret (Failure 404 "Product not found")
          | Some existingProduct =>
              skuConflict ←
                (if skuChanges value existingProduct
                 then MockProductService.findBySku
                        (default "" (ProductPatch.sku value))
                 else mret None);
              match skuConflict with
              | Some _ => mret (Failure 409 "Product with this SKU already exists")
              | None =>
                  updatedProduct ← MockProductService.update id' value;
                  match updatedProduct with
                  | None => mret (Failure 500 "Failed to update product")
                  | Some updatedProduct =>
                      mret (Success "Product updated successfully"
                              (Some updatedProduct))
                  end
              end
          end
      end
  end.

(** [deleteProduct] does not read [this]. *)
Definition ProductController_deleteProduct (req : Request) : M Reply :=
  let id' := params_id req in
  product ← MockProductService.findById id';
  match product with
  | None => mret (Failure 404 "Product not found")
  | Some _ =>
      deleted ← MockProductService.delete id';
      if (deleted : bool) then mret (Success "Product deleted successfully" None)
      else mret (Failure 500 "Failed to delete product")
  end.

(** *** controllers: [InventoryController.getInventoryLogs]

    [page] and [limit] are what [parseInt] made of the query ([None] for
    [NaN]); the arithmetic on them is that of integers, which the numbers of
    the code follow as long as they stay below 2^53. *)






(** *** routes

    A route runs [AuthMiddleware.authenticate], then the authorisation
    middleware, then the controller method wrapped in
    [ErrorHandler.asyncHandler]. [authenticate] answers a request without a
    valid token itself and hands the others on with [req.user] set; [route]
    is what follows it, on a request it has handed on. *)

Definition route {R} (authorization : Request → AuthMiddleware.Outcome)
    (fn : Receiver → Request → M R) (req : Request) : M (Answer R) :=
  match authorization req with
  | AuthMiddleware.Reject status' message => mret (Refused status' message)
  | AuthMiddleware.Next =>
      r ← ErrorHandler.asyncHandler fn req;
      mret (Handled r)
  end.

(** [router.patch('/:id', ..., requireManagerOrAdmin,
    asyncHandler(InventoryController.updateStock))] *)
Definition PATCH_inventory : Request → M (Answer Response) :=
  route AuthMiddleware.requireManagerOrAdmin InventoryController_updateStock.

(** [router.post('/', ..., requireAdmin,
    asyncHandler(ProductController.createProduct))] *)
Definition POST_products : Request → M (Answer Response) :=
  route AuthMiddleware.requireAdmin ProductController_createProduct.

(** [router.put('/:id', ..., requireAdmin,
    asyncHandler(ProductController.updateProduct))] *)
Definition PUT_products : Request → M (Answer Reply) :=
  route AuthMiddleware.requireAdmin ProductController_updateProduct.

(** [router.delete('/:id', ..., requireAdmin,
    asyncHandler(ProductController.deleteProduct))] *)
Definition DELETE_products : Request → M (Answer Reply) :=
  route AuthMiddleware.requireAdmin (λ _, ProductController_deleteProduct).

(** *** A run of the process

    What may happen to the stores, one event after the other: a call of a
    method of [MockInventoryLogService], or a call of one of the two
    controller methods that write to a store, with the receiver it is called
    with ([ThisUndefined] when the call comes through the route). *)

Inductive LogCall :=
  | CallFindAll
  | CallFindById (id' : string)
  | CallFindByProduct (productId' : string)
  | CallFindByWarehouse (warehouseId' : string)
  | CallFindByUser (userId' : string)
  | CallFindRecent (limit : Z)
  | CallCreate (logData : LogData.t)
  | CallCreateStockUpdate (productId' warehouseId' userId' : string)
      (previousStock' newStock' : number) (reason' : option string)
  | CallCount
  | CallGetStockMovements (productId' : string) (days : number)
  | CallGetTotalMovementsByAction.

(** The call, its result dropped. *)
Definition logCall (c : LogCall) : M unit :=
  match c with
  | CallFindAll => MockInventoryLogService.findAll;; mret ()
  | CallFindById i => MockInventoryLogService.findById i;; mret ()
  | CallFindByProduct i => MockInventoryLogService.findByProduct i;; mret ()
  | CallFindByWarehouse i => MockInventoryLogService.findByWarehouse i;; mret ()
  | CallFindByUser i => MockInventoryLogService.findByUser i;; mret ()
  | CallFindRecent n => MockInventoryLogService.findRecent n;; mret ()
  | CallCreate d => MockInventoryLogService.create d;; mret ()
  | CallCreateStockUpdate p wh u prev new rsn =>
      MockInventoryLogService.createStockUpdate p wh u prev new rsn;; mret ()
  | CallCount => MockInventoryLogService.count;; mret ()
  | CallGetStockMovements p d =>
      MockInventoryLogService.getStockMovements setDateBack p d;; mret ()
  | CallGetTotalMovementsByAction =>
      MockInventoryLogService.getTotalMovementsByAction;; mret ()
  end.

Inductive Event :=
  | LogService (c : LogCall)
  | PatchInventory (this : Receiver) (req : Request)
  | PostProduct (this : Receiver) (req : Request).

Definition event (ev : Event) : M unit :=
  match ev with
  | LogService c => logCall c
  | PatchInventory this req => InventoryController_updateStock this req;; mret ()
  | PostProduct this req => ProductController_createProduct this req;; mret ()
  end.

Fixpoint events (evs : list Event) : M unit :=
  match evs with
  | [] => mret ()
  | ev :: evs' => event ev;; events evs'
  end.

End Controllers.

(** ** Data for the examples *)

(** A clock that returns the same millisecond at every reading, as it does
    for calls that follow each other within one millisecond. *)
Definition steadyClock (t : Date) : nat → Date := λ _, t.

(** The stores as the modules initialise them. *)
Definition initialWorld (clk : nat → Date) : World :=
  {| products := MockProductService.initial;
     logs := MockInventoryLogService.initial;
     clock := clk; reads := 0 |}.

(** A conversion that accepts no string: the example bodies below carry
    JSON numbers. *)
Definition noStringNumbers : string → option number := λ _, None.

(** The integer that a number is, [None] when it is not a whole number. *)
Definition wholeNumber (x : number) : option Z :=
  match Prim2SF x with
  | S754_zero _ => Some 0%Z
  | S754_finite sign m e =>
      if (0 <=? e)%Z || (Z.pos m mod 2 ^ (- e) =? 0)%Z then
        let n := Z.shiftl (Z.pos m) e in
        Some (if sign then (- n)%Z else n)
      else None
  | _ => None
  end.

(** A calendar for the examples, which ask for whole numbers of days: that
    of a host whose time zone is UTC, where going back [n] days is going
    back [n] times 24 hours, a date more than 8.64e15 milliseconds from the
    epoch being invalid. Numbers of days that are not whole are left
    without a date here. *)
Definition utcCalendar (d : Date) (days : number) : option Date :=
  n ← wholeNumber days;
  let t := (d - n * 86400000)%Z in
  if (Z.abs t <=? 8640000000000000)%Z then Some t else None.

Definition manager : AuthUser :=
  {| id := "user_manager_001"; email := "manager@example.com"; role := MANAGER |}.

Definition admin : AuthUser :=
  {| id := "user_admin_001"; email := "admin@example.com"; role := ADMIN |}.

(** [PATCH /api/v1/inventory/:id] with [{ stock, reason }]. *)
Definition patchStock (id' : string) (stock' : number) (reason' : string) : Request :=
  {| params_id := id';
     body := {[ "stock" := JsNumber stock'; "reason" := JsString reason' ]};
     user := Some manager |}.

(** The millisecond of the example clock. *)
Definition T0 : Date := 1760000000000.

Definition world0 : World := initialWorld (steadyClock T0).

(** The requests of the integration tests: a stock update, one for a
    product that does not exist, one with a negative stock. *)
Definition restock : Request :=
  patchStock "prod_001" 10 "Stock adjustment for testing".

Definition patchUnknown : Request := patchStock "nonexistent-id" 10 "Test update".

Definition patchNegative : Request := patchStock "prod_001" (-5) "Invalid stock update".

(** A negative stock for a product that does not exist. *)
Definition patchUnknownNegative : Request :=
  patchStock "nonexistent-id" (-5) "Invalid stock update".

(** A stock that is not a whole number. *)
Definition patchFractional : Request := patchStock "prod_001" 3.5 "Half a unit".

(** [POST /api/v1/products] *)
Definition postProduct (name' sku' : string) (price' : number) (category' : string)
    (stock' : number) : Request :=
  {| params_id := "";
     body := {[ "name" := JsString name'; "sku" := JsString sku';
                "price" := JsNumber price'; "category" := JsString category';
                "stock" := JsNumber stock' ]};
     user := Some admin |}.

Definition postFresh : Request :=
  postProduct "Test Product" "TEST-001" 99.99 "Test Category" 10.

Definition postDuplicate : Request :=
  postProduct "Duplicate Product" "DX15-2025" 99.99 "Test Category" 10.

Definition keyboard : ProductData.t :=
  {| ProductData.name := "Wireless Keyboard"; ProductData.sku := "WK-2025";
     ProductData.price := 79.99; ProductData.category := "Electronics";
     ProductData.stock := 25; ProductData.minStock := Some 5%float;
     ProductData.description := None; ProductData.warehouseId := Some "wh_main" |}.

(** Update data that gives a product another SKU and nothing else. *)
Definition renameTo (sku' : string) : ProductPatch.t :=
  {| ProductPatch._id := None; ProductPatch.name := None;
     ProductPatch.sku := Some sku'; ProductPatch.price := None;
     ProductPatch.category := None; ProductPatch.stock := None;
     ProductPatch.minStock := None; ProductPatch.description := None;
     ProductPatch.warehouseId := None; ProductPatch.createdAt := None;
     ProductPatch.updatedAt := None |}.

Definition webcam : ProductData.t :=
  {| ProductData.name := "Webcam"; ProductData.sku := "WC-2025";
     ProductData.price := 49.5; ProductData.category := "Electronics";
     ProductData.stock := 8; ProductData.minStock := None;
     ProductData.description := None; ProductData.warehouseId := None |}.

(** The entry that [createStockUpdate] builds and stores when it is called
    in the state [w], written out. *)
Definition stockEntry (w : World) (productId' warehouseId' userId' : string)
    (previousStock' newStock' : number) (reason' : option string) : IInventoryLog.t :=
  {| IInventoryLog._id := "log_" +:+ pretty (clock w (reads w));
     IInventoryLog.productId := productId';
     IInventoryLog.warehouseId := Some warehouseId';
     IInventoryLog.userId := userId';
     IInventoryLog.action :=
       if Num.gt (Num.sub newStock' previousStock') 0 then add else update;
     IInventoryLog.previousStock := previousStock';
     IInventoryLog.newStock := newStock';
     IInventoryLog.quantity := Num.sub newStock' previousStock';
     IInventoryLog.reason := Some (string_or reason' "Stock update");
     IInventoryLog.timestamp := clock w (S (reads w)) |}.

(** ** Properties *)

(** *** Running the monad *)

Ltac run :=
  repeat (unfold mbind, M_bind, mret, M_ret, get_products, set_products,
            get_logs, set_logs, Date_now; cbn -[pretty]).

Lemma bind_run {A B} (m : M A) (f : A → M B) w :
  (m ≫= f) w = f (m w).1 (m w).2.
Proof. unfold mbind, M_bind. by destruct (m w). Qed.

(** *** The product store *)

Module ProductStore.
Import IProduct MockProductService.

Lemma findById_run id' w :
  findById id' w = (snd <$> list_find (λ p, _id p = id') (products w), w).
Proof. reflexivity. Qed.

Lemma findBySku_run s w :
  findBySku s w = (snd <$> list_find (λ p, sku p = s) (products w), w).
Proof. reflexivity. Qed.

Lemma updateStock_missing id' x w :
  list_find (λ p, _id p = id') (products w) = None →
  updateStock id' x w = (None, w).
Proof. intros H. unfold updateStock. run. by rewrite H. Qed.

Lemma updateStock_found id' x w i p :
  list_find (λ p, _id p = id') (products w) = Some (i, p) →
  updateStock id' x w =
    (Some (set_stock p x (clock w (reads w))),
     {| products := <[i := set_stock p x (clock w (reads w))]> (products w);
        logs := logs w; clock := clock w; reads := S (reads w) |}).
Proof. intros H. unfold updateStock. run. by rewrite H. Qed.

(** Writing the stock of the first product with a given id keeps it the
    first product with that id. *)
Lemma find_after_set_stock id' (ps : list IProduct.t) i p x t :
  list_find (λ p, _id p = id') ps = Some (i, p) →
  list_find (λ p, _id p = id') (<[i := set_stock p x t]> ps)
    = Some (i, set_stock p x t).
Proof.
  intros (Hi & Hp & Hleast)%list_find_Some.
  apply list_find_insert_Some. right; left.
  split_and!; [done | done | by eapply lookup_lt_Some | done |].
  intros j z Hj Hlt. by apply (Hleast j z).
Qed.

Lemma product_create_run d w :
  create d w =
    let p := {| _id := "prod_" +:+ pretty (clock w (reads w));
                name := ProductData.name d; sku := ProductData.sku d;
                price := ProductData.price d; category := ProductData.category d;
                stock := ProductData.stock d; minStock := ProductData.minStock d;
                description := ProductData.description d;
                warehouseId := ProductData.warehouseId d;
                createdAt := clock w (S (reads w));
                updatedAt := clock w (S (S (reads w))) |} in
    (p, {| products := products w ++ [p]; logs := logs w; clock := clock w;
           reads := S (S (S (reads w))) |}).
Proof. reflexivity. Qed.
End ProductStore.

(** *** The audit log *)

Module AuditLog.
Import IInventoryLog MockInventoryLogService.

Lemma log_create_run d w :
  create d w =
    let e := {| _id := "log_" +:+ pretty (clock w (reads w));
                productId := LogData.productId d;
                warehouseId := LogData.warehouseId d;
                userId := LogData.userId d; action := LogData.action d;
                previousStock := LogData.previousStock d;
                newStock := LogData.newStock d;
                quantity := LogData.quantity d; reason := LogData.reason d;
                timestamp := clock w (S (reads w)) |} in
    (e, {| products := products w; logs := logs w ++ [e]; clock := clock w;
           reads := S (S (reads w)) |}).
Proof. reflexivity. Qed.

Lemma createStockUpdate_run pid wh uid prev new rsn w :
  createStockUpdate pid wh uid prev new rsn w =
    (stockEntry w pid wh uid prev new rsn,
     {| products := products w;
        logs := logs w ++ [stockEntry w pid wh uid prev new rsn];
        clock := clock w; reads := S (S (reads w)) |}).
Proof.
  unfold createStockUpdate. rewrite log_create_run. unfold stockEntry.
  cbn -[pretty].
  destruct (Num.gt _ _); [done |]. by destruct (Num.lt _ _).
Qed.
End AuditLog.

(** *** Comparisons on binary64 *)

Module NumFacts.
Lemma SFcompare_antisym x y : SFcompare y x = option_map CompOpp (SFcompare x y).
Proof.
  destruct x as [[]|[]| |[] m e], y as [[]|[]| |[] m' e']; cbn; try reflexivity;
    rewrite (Z.compare_antisym e e'); destruct (e ?= e')%Z; cbn; try reflexivity;
    rewrite (Pos.compare_cont_antisym m m' Eq); cbn; try reflexivity.
  all: by rewrite ?CompOpp_involutive.
Qed.

(** [a >= b] excludes [a < b]. *)
Lemma ge_not_lt a b : Num.ge a b = true → Num.lt a b = false.
Proof.
  unfold Num.ge, Num.lt. intros H.
  rewrite FloatAxioms.leb_spec in H. rewrite FloatAxioms.ltb_spec.
  unfold SFleb, SFltb in *.
  rewrite (SFcompare_antisym (Prim2SF b) (Prim2SF a)).
  by destruct (SFcompare (Prim2SF b) (Prim2SF a)) as [[]|].
Qed.

(** Only numbers compare: [a >= b] excludes that [a] is [NaN]. *)
Lemma ge_not_NaN_l a b : Num.ge a b = true → Num.isNaN a = false.
Proof.
  unfold Num.ge, Num.isNaN. intros H.
  rewrite FloatAxioms.leb_spec in H. rewrite FloatAxioms.eqb_spec.
  unfold SFleb, SFeqb in *.
  destruct (Prim2SF a) as [[]|[]| |[] m e], (Prim2SF b) as [[]|[]| |[] m' e'];
    cbn in *; try done;
    by rewrite ?Z.compare_refl, ?Pos.compare_cont_refl.
Qed.

Lemma lt_zero_not_ge x : Num.lt x 0 = true → Num.ge x 0 = false.
Proof.
  intros H. destruct (Num.ge x 0) eqn:Hge; [| done].
  apply ge_not_lt in Hge. congruence.
Qed.

Lemma lt_zero_not_eq x : Num.lt x 0 = true → Num.eq x 0 = false.
Proof.
  unfold Num.lt, Num.eq. intros H.
  rewrite FloatAxioms.ltb_spec in H. rewrite FloatAxioms.eqb_spec.
  change (Prim2SF 0) with (S754_zero false) in *.
  by destruct (Prim2SF x) as [[]|[]| |[] m e].
Qed.

(** A number between zero and [MAX_SAFE_INTEGER] is neither infinite nor
    outside the safe range. *)
Lemma in_safe_range x :
  Num.ge x 0 = true → Num.ge Num.MAX_SAFE_INTEGER x = true →
  Num.eq x infinity = false ∧ Num.eq x neg_infinity = false
  ∧ Num.gt x Num.MAX_SAFE_INTEGER = false
  ∧ Num.lt x Num.MIN_SAFE_INTEGER = false.
Proof.
  intros Hlo Hhi. split_and!.
  - unfold Num.ge, Num.eq in *. rewrite FloatAxioms.leb_spec in Hhi.
    rewrite FloatAxioms.eqb_spec.
    change (Prim2SF infinity) with (S754_infinity false).
    change (Prim2SF Num.MAX_SAFE_INTEGER)
      with (S754_finite false 9007199254740991 0) in Hhi.
    by destruct (Prim2SF x) as [[]|[]| |[] m e].
  - unfold Num.ge, Num.eq in *. rewrite FloatAxioms.leb_spec in Hlo.
    rewrite FloatAxioms.eqb_spec.
    change (Prim2SF neg_infinity) with (S754_infinity true).
    change (Prim2SF 0) with (S754_zero false) in Hlo.
    by destruct (Prim2SF x) as [[]|[]| |[] m e].
  - by apply (ge_not_lt Num.MAX_SAFE_INTEGER x).
  - unfold Num.ge, Num.lt in *. rewrite FloatAxioms.leb_spec in Hlo.
    rewrite FloatAxioms.ltb_spec.
    change (Prim2SF Num.MIN_SAFE_INTEGER)
      with (S754_finite true 9007199254740991 0).
    change (Prim2SF 0) with (S754_zero false) in Hlo.
    by destruct (Prim2SF x) as [[]|[]| |[] m e].
Qed.
End NumFacts.

Section Properties.

Variable numberOfString : string → option number.
Variable setDateBack : Date → number → option Date.

Local Abbreviation updateStockSchema := (updateStockSchema numberOfString).
Local Abbreviation productSchema := (productSchema numberOfString).
Local Abbreviation Joi_number_min0 := (Joi_number_min0 numberOfString).
Local Abbreviation Joi_number_coerce := (Joi_number_coerce numberOfString).
Local Abbreviation updateStock := (InventoryController_updateStock numberOfString).
Local Abbreviation createProduct := (ProductController_createProduct numberOfString).

(** *** The methods called without a receiver

    Called as a plain function, which is how [asyncHandler] calls them, the
    methods answer 500 and leave the state as it is, whatever the request. *)

Lemma updateStock_without_receiver req w :
  updateStock ThisUndefined req w = (InternalError, w).
Proof. reflexivity. Qed.

Lemma createProduct_without_receiver req w :
  createProduct ThisUndefined req w = (InternalError, w).
Proof. reflexivity. Qed.

(** *** The schemas, and the methods called on their class *)

(** A negative number does not pass [Joi.number().min(0)]. *)
Lemma Joi_number_min0_negative v x :
  Joi_number_coerce v = Some x → Num.lt x 0 = true → Joi_number_min0 v = None.
Proof.
  intros Hv Hx. unfold Joi_number_min0. rewrite Hv. cbn.
  rewrite (NumFacts.lt_zero_not_eq x Hx), (NumFacts.lt_zero_not_ge x Hx).
  by repeat case_match.
Qed.

Lemma Joi_number_min0_non_numeric v :
  Joi_number_coerce v = None → Joi_number_min0 v = None.
Proof. intros Hv. unfold Joi_number_min0. by rewrite Hv. Qed.

(** [Joi.number().min(0)] accepts every number from zero to
    [MAX_SAFE_INTEGER], whole or not; it only turns [-0] into [0]. *)
Lemma Joi_number_min0_accepts x :
  Num.ge x 0 = true → Num.ge Num.MAX_SAFE_INTEGER x = true →
  Joi_number_min0 (JsNumber x) = Some (if Num.eq x 0 then 0%float else x).
Proof.
  intros Hlo Hhi. unfold Joi_number_min0. cbn.
  destruct (NumFacts.in_safe_range x Hlo Hhi) as (-> & -> & -> & ->).
  rewrite (NumFacts.ge_not_NaN_l x 0 Hlo). cbn.
  destruct (Num.eq x 0); [done |]. by rewrite Hlo.
Qed.

(** The schema of [updateStock] fails as soon as its [stock] key does. *)
Lemma updateStockSchema_stock_invalid o v :
  o !! "stock" = Some v → Joi_number_min0 v = None → updateStockSchema o = None.
Proof.
  intros Ho Hv. unfold updateStockSchema.
  case_match; [| done]. rewrite Ho. cbn. by rewrite Hv.
Qed.

(** What one call of the method on its class does, case by case. The answer
    [UpdateFailed] never shows: the product that [findById] found is still
    there when [MockProductService.updateStock] looks for it. *)
Lemma updateStock_run req w :
  updateStock ThisClass req w =
    match updateStockSchema (body req) with
    | None => (ValidationError, w)
    | Some value =>
        match list_find (λ p, IProduct._id p = params_id req) (products w) with
        | None => (NotFound, w)
        | Some (i, p) =>
            let t := clock w (reads w) in
            let p' := MockProductService.set_stock p (stock value) t in
            let w1 := {| products := <[i := p']> (products w); logs := logs w;
                         clock := clock w; reads := S (reads w) |} in
            match user req with
            | None => (InternalError, w1)
            | Some u =>
                let e := stockEntry w1 (params_id req)
                           (string_or (IProduct.warehouseId p) "") (id u)
                           (IProduct.stock p) (stock value) (reason value) in
                (StockUpdated (params_id req) (IProduct.stock p) (stock value) t,
                 {| products := <[i := p']> (products w); logs := logs w ++ [e];
                    clock := clock w; reads := S (S (S (reads w))) |})
            end
        end
    end.
Proof.
  unfold InventoryController_updateStock, this_field.
  destruct (updateStockSchema (body req)) as [value|]; [| done].
  rewrite bind_run, ProductStore.findById_run. cbn -[list_find].
  destruct (list_find _ (products w)) as [[i p]|] eqn:Hfind; [| done].
  cbn -[list_find]. rewrite bind_run.
  rewrite (ProductStore.updateStock_found _ _ _ _ _ Hfind). cbn -[list_find].
  destruct (user req) as [u|]; [| done].
  rewrite bind_run, AuditLog.createStockUpdate_run. reflexivity.
Qed.

(** A successful answer pins down the whole call. *)
Lemma updateStock_success_inv this req w pid prev new t w' :
  updateStock this req w = (StockUpdated pid prev new t, w') →
  ∃ value i p u,
    this = ThisClass
    ∧ updateStockSchema (body req) = Some value
    ∧ list_find (λ p, IProduct._id p = params_id req) (products w) = Some (i, p)
    ∧ user req = Some u
    ∧ pid = params_id req ∧ prev = IProduct.stock p ∧ new = stock value
    ∧ t = clock w (reads w)
    ∧ w' = {| products :=
                <[i := MockProductService.set_stock p new t]> (products w);
              logs := logs w ++
                [stockEntry
                   {| products :=
                        <[i := MockProductService.set_stock p new t]> (products w);
                      logs := logs w; clock := clock w; reads := S (reads w) |}
                   pid (string_or (IProduct.warehouseId p) "") (id u)
                   prev new (reason value)];
              clock := clock w; reads := S (S (S (reads w))) |}.
Proof.
  destruct this; [| by rewrite updateStock_without_receiver].
  rewrite updateStock_run.
  destruct (updateStockSchema (body req)) as [value|]; [| done].
  destruct (list_find _ (products w)) as [[i p]|]; [| done].
  destruct (user req) as [u|]; [| done].
  cbn zeta. intros [= <- <- <- <- <-].
  by exists value, i, p, u.
Qed.

(** With a valid body, a product that is there and an authenticated user,
    the call does succeed. *)
Lemma updateStock_succeeds req w value i p u :
  updateStockSchema (body req) = Some value →
  list_find (λ p, IProduct._id p = params_id req) (products w) = Some (i, p) →
  user req = Some u →
  (updateStock ThisClass req w).1 =
    StockUpdated (params_id req) (IProduct.stock p) (stock value) (clock w (reads w)).
Proof. intros Hv Hp Hu. by rewrite updateStock_run, Hv, Hp, Hu. Qed.

(** A validated stock is a number that is at least zero. *)
Lemma Joi_number_min0_ge v x : Joi_number_min0 v = Some x → Num.ge x 0 = true.
Proof.
  unfold Joi_number_min0.
  destruct (Joi_number_coerce v) as [y|]; [| done]. cbn.
  repeat case_match; naive_solver.
Qed.

Lemma updateStockSchema_ge o value :
  updateStockSchema o = Some value → Num.ge (stock value) 0 = true.
Proof.
  unfold updateStockSchema. case_match; [| done].
  destruct (o !! "stock") as [v|]; [| done]. cbn.
  destruct (Joi_number_min0 v) as [x|] eqn:Hx; [| done]. cbn.
  destruct (optional _ _); [| done]. cbn. intros [= <-]. cbn.
  by eapply Joi_number_min0_ge.
Qed.

(** For a product that is in the store, a call on the class that succeeds
    was given a body whose stock passed the schema, a stock of at least
    zero; afterwards the product holds that stock, and the log is the old log
    followed by exactly one entry, whose [previousStock] is the stock held
    before the call, whose [newStock] is the stock of the body and whose
    [quantity] is their difference. *)
Lemma updateStock_on_class_success req w i p pid prev new t w' :
  list_find (λ p, IProduct._id p = params_id req) (products w) = Some (i, p) →
  updateStock ThisClass req w = (StockUpdated pid prev new t, w') →
  (∃ value, updateStockSchema (body req) = Some value ∧ new = stock value)
  ∧ Num.ge new 0 = true
  ∧ prev = IProduct.stock p
  ∧ products w' = <[i := MockProductService.set_stock p new t]> (products w)
  ∧ (∃ p', (MockProductService.findById (params_id req) w').1 = Some p'
           ∧ IProduct.stock p' = new)
  ∧ ∃ e, logs w' = logs w ++ [e]
         ∧ IInventoryLog.productId e = params_id req
         ∧ IInventoryLog.previousStock e = IProduct.stock p
         ∧ IInventoryLog.newStock e = new
         ∧ IInventoryLog.quantity e = Num.sub new (IProduct.stock p).
Proof.
  intros Hfind Hrun.
  apply updateStock_success_inv in Hrun
    as (value & i' & p' & u & _ & Hv & Hfind' & _ & -> & -> & -> & -> & ->).
  rewrite Hfind in Hfind'. injection Hfind' as <- <-.
  split_and!; [by exists value | by eapply updateStockSchema_ge | done | done | |].
  - eexists. rewrite ProductStore.findById_run. cbn -[list_find].
    by rewrite (ProductStore.find_after_set_stock _ _ _ _ _ _ Hfind).
  - by eexists.
Qed.

(** For an identifier that no product of the store carries, a call on the
    class answers [NotFound] when the body passes validation and
    [ValidationError] when it does not, the body being checked first; either
    way no log entry is appended and no product changes. *)
Lemma updateStock_on_class_unknown_product req w :
  (MockProductService.findById (params_id req) w).1 = None →
  updateStock ThisClass req w =
    (match updateStockSchema (body req) with
     | Some _ => NotFound
     | None => ValidationError
     end, w).
Proof.
  rewrite ProductStore.findById_run, updateStock_run. cbn -[list_find].
  intros Hnone. destruct (updateStockSchema (body req)); [| done].
  by destruct (list_find _ (products w)).
Qed.

(** When the [stock] of the body is a negative number, or is not a number
    at all, a call on the class answers [ValidationError] and the state is
    the one before the call. *)
Lemma updateStock_on_class_rejects_negative_or_non_numeric req w v :
  body req !! "stock" = Some v →
  Joi_number_coerce v = None
    ∨ (∃ x, Joi_number_coerce v = Some x ∧ Num.lt x 0 = true) →
  updateStock ThisClass req w = (ValidationError, w).
Proof.
  intros Hstock Hbad. rewrite updateStock_run.
  rewrite (updateStockSchema_stock_invalid _ v); [done | done |].
  destruct Hbad as [Hnone | (x & Hx & Hneg)].
  - by apply Joi_number_min0_non_numeric.
  - by eapply Joi_number_min0_negative.
Qed.

(** The action of the entry [createStockUpdate] builds. *)
Lemma stockEntry_action w pid wh uid prev new rsn :
  let e := stockEntry w pid wh uid prev new rsn in
  (IInventoryLog.action e = add ↔ Num.gt (Num.sub new prev) 0 = true)
  ∧ (IInventoryLog.action e = update ↔ Num.gt (Num.sub new prev) 0 = false)
  ∧ IInventoryLog.action e ≠ remove.
Proof. cbn. by destruct (Num.gt _ _). Qed.

(** C4. The entry that [createStockUpdate] creates, and so the entry that a
    successful [updateStock] appends, whatever receiver it is called with,
    has the action [add] exactly when new stock minus previous stock is
    greater than zero and [update] exactly when it is not; it never has the
    action [remove]. *)
Theorem stock_mutation_action_is_add_or_update :
  (∀ pid wh uid prev new rsn w,
     let e := (MockInventoryLogService.createStockUpdate
                 pid wh uid prev new rsn w).1 in
     (IInventoryLog.action e = add ↔ Num.gt (Num.sub new prev) 0 = true)
     ∧ (IInventoryLog.action e = update ↔ Num.gt (Num.sub new prev) 0 = false)
     ∧ IInventoryLog.action e ≠ remove)
  ∧ (∀ this req w pid prev new t w',
       InventoryController_updateStock numberOfString this req w
         = (StockUpdated pid prev new t, w') →
       ∃ e, logs w' = logs w ++ [e]
            ∧ (IInventoryLog.action e = add ↔ Num.gt (Num.sub new prev) 0 = true)
            ∧ (IInventoryLog.action e = update
                 ↔ Num.gt (Num.sub new prev) 0 = false)
            ∧ IInventoryLog.action e ≠ remove).
Proof.
  split.
  - intros. subst e. rewrite AuditLog.createStockUpdate_run.
    apply stockEntry_action.
  - intros this req w pid prev new t w' Hrun.
    apply updateStock_success_inv in Hrun
      as (value & i & p & u & _ & _ & _ & _ & -> & -> & -> & -> & ->).
    eexists. split; [done |]. apply stockEntry_action.
Qed.

(** *** The log only grows *)

Lemma logCall_logs c w :
  logs (logCall setDateBack c w).2 = logs w
  ∨ ∃ e, logs (logCall setDateBack c w).2 = logs w ++ [e].
Proof.
  destruct c; try (by left).
  - right. cbn. rewrite bind_run, AuditLog.log_create_run. by eexists.
  - right. cbn. rewrite bind_run, AuditLog.createStockUpdate_run. by eexists.
Qed.

Lemma updateStock_logs this req w :
  logs (updateStock this req w).2 = logs w
  ∨ ∃ e, logs (updateStock this req w).2 = logs w ++ [e].
Proof.
  destruct this; [| by left].
  rewrite updateStock_run.
  destruct (updateStockSchema (body req)); [| by left].
  destruct (list_find _ _) as [[i p]|]; [| by left].
  destruct (user req); [| by left]. right. by eexists.
Qed.

Lemma createProduct_logs this req w : logs (createProduct this req w).2 = logs w.
Proof.
  destruct this; [| done].
  unfold ProductController_createProduct, this_field.
  destruct (productSchema (body req)) as [value|]; [| done].
  rewrite bind_run, ProductStore.findBySku_run. cbn -[list_find].
  by destruct (list_find _ _).
Qed.

Lemma event_logs ev w :
  logs (event numberOfString setDateBack ev w).2 = logs w
  ∨ ∃ e, logs (event numberOfString setDateBack ev w).2 = logs w ++ [e].
Proof.
  destruct ev as [c | this req | this req]; cbn; rewrite ?bind_run; cbn.
  - apply logCall_logs.
  - apply updateStock_logs.
  - left. apply createProduct_logs.
Qed.

Lemma events_logs_prefix evs w :
  logs w `prefix_of` logs (events numberOfString setDateBack evs w).2.
Proof.
  revert w. induction evs as [| ev evs IH]; intros w; [done |].
  cbn. rewrite bind_run. etrans; [| apply IH].
  destruct (event_logs ev w) as [-> | [e ->]]; [done |].
  by apply prefix_app_r.
Qed.

(** C5. Every method of the inventory-log service leaves the entries that
    are in the log where they are and as they are: after a call the log is
    the old log, or the old log with one entry added at the end. So along
    any run of the process, whatever the receivers of the controller calls
    and whatever the calendar of the host, the log at an earlier moment is a
    prefix of the log at a later one, and an entry read at a position is
    read there, unchanged, ever after. *)
Theorem audit_log_is_append_only :
  (∀ c w, logs (logCall setDateBack c w).2 = logs w
          ∨ ∃ e, logs (logCall setDateBack c w).2 = logs w ++ [e])
  ∧ (∀ evs w, logs w `prefix_of` logs (events numberOfString setDateBack evs w).2)
  ∧ (∀ evs w i e, logs w !! i = Some e →
                  logs (events numberOfString setDateBack evs w).2 !! i = Some e).
Proof.
  split_and!.
  - apply logCall_logs.
  - apply events_logs_prefix.
  - intros evs w i e Hi.
    destruct (events_logs_prefix evs w) as [k ->].
    by apply lookup_app_l_Some.
Qed.

(** For product data that passed validation, in a call on the class: when
    a product of the store has exactly this SKU, [createProduct] answers
    [Conflict] and the state is the one before the call; when none has, it
    answers with the created product, which is added to the store and is
    what [findBySku] returns for that SKU afterwards. *)
Lemma createProduct_on_class_conflict_or_created req w value :
  productSchema (body req) = Some value →
  ((∃ q, q ∈ products w ∧ IProduct.sku q = ProductData.sku value) →
     createProduct ThisClass req w = (Conflict, w))
  ∧ ((∀ q, q ∈ products w → IProduct.sku q ≠ ProductData.sku value) →
     ∃ p w', createProduct ThisClass req w = (ProductCreated p, w')
             ∧ IProduct.sku p = ProductData.sku value
             ∧ products w' = products w ++ [p]
             ∧ logs w' = logs w
             ∧ (MockProductService.findBySku (ProductData.sku value) w').1
                 = Some p).
Proof.
  intros Hvalue. unfold ProductController_createProduct, this_field.
  rewrite Hvalue.
  rewrite bind_run, ProductStore.findBySku_run. cbn -[list_find].
  split.
  - intros (q & Hq & Hsku).
    destruct (list_find_elem_of (λ p, IProduct.sku p = ProductData.sku value)
                (products w) q Hq Hsku) as [[i q'] ->].
    done.
  - intros Hfresh.
    assert (list_find (λ p, IProduct.sku p = ProductData.sku value) (products w)
            = None) as Hnone.
    { apply list_find_None, Forall_forall. exact Hfresh. }
    rewrite Hnone. cbn -[list_find].
    rewrite bind_run, ProductStore.product_create_run. cbn -[list_find pretty].
    do 2 eexists. split_and!; [done | done | done | done |].
    rewrite ProductStore.findBySku_run. cbn -[list_find pretty].
    rewrite (list_find_app_r _ _ _ Hnone). cbn -[pretty].
    by rewrite decide_True.
Qed.

End Properties.

(** *** Roles *)

(** C6. [hasRole actual required] is true exactly when the rank of [actual]
    is at least the rank of [required], with Viewer 1, Manager 2 and Admin 3;
    an admin has the viewer role, a viewer does not have the manager role,
    and every role has itself. *)
Theorem hasRole_iff_rank_ge :
  (∀ actual required,
     AuthUtils.hasRole actual required = true
     ↔ spec_rank actual ≥ spec_rank required)
  ∧ AuthUtils.hasRole ADMIN VIEWER = true
  ∧ AuthUtils.hasRole VIEWER MANAGER = false
  ∧ (∀ r, AuthUtils.hasRole r r = true).
Proof.
  split_and!; [| done | done |].
  - intros [] []; cbn; split; (done || lia).
  - by intros [].
Qed.

(** [hasAnyRole] holds exactly when [hasRole] does for one of the roles. *)
Lemma hasAnyRole_iff actual requiredRoles :
  AuthUtils.hasAnyRole actual requiredRoles = true
  ↔ ∃ required, required ∈ requiredRoles ∧ AuthUtils.hasRole actual required = true.
Proof.
  unfold AuthUtils.hasAnyRole. rewrite existsb_exists.
  by setoid_rewrite list_elem_of_In.
Qed.

(** *** Identifiers of created products *)

(** The identifier is the reading of the clock, so two products created at
    any two moments get the same one exactly when the two readings agree. *)
Lemma create_id_eq_iff d1 w1 d2 w2 :
  IProduct._id (MockProductService.create d1 w1).1
    = IProduct._id (MockProductService.create d2 w2).1
  ↔ clock w1 (reads w1) = clock w2 (reads w2).
Proof.
  rewrite !ProductStore.product_create_run. cbn -[pretty]. split.
  - intros H. apply (inj (String.app "prod_")) in H. by apply (inj pretty) in H.
  - by intros ->.
Qed.

(** C8. Two products created one after the other while the clock shows the
    same millisecond: both are in the store, they differ (in SKU and name),
    and they carry the same identifier, so the identifiers of the store are
    not all distinct; deleting by that identifier then reports success and
    leaves a product that [findById] still returns for it. *)
Theorem create_twice_within_one_millisecond_repeats_the_id :
  let '(p1, w1) := MockProductService.create keyboard world0 in
  let '(p2, w2) := MockProductService.create webcam w1 in
  let '(deleted, w3) := MockProductService.delete (IProduct._id p1) w2 in
  products w2 = products world0 ++ [p1; p2]
  ∧ IProduct.sku p1 ≠ IProduct.sku p2
  ∧ IProduct._id p1 = "prod_1760000000000"
  ∧ IProduct._id p2 = "prod_1760000000000"
  ∧ ¬ NoDup (IProduct._id <$> products w2)
  ∧ deleted = true
  ∧ (MockProductService.findById (IProduct._id p1) w3).1 = Some p2.
Proof.
  vm_compute. split_and!; [done | done | done | done | | done | done].
  intros Hnodup. do 5 apply NoDup_cons_1_2 in Hnodup.
  apply NoDup_cons_1_1 in Hnodup. apply Hnodup. by left.
Qed.

(** The schema has no rule on whole numbers. A stock of 3.5, which lies
    strictly between 3 and 4, passes it whatever the conversion of strings
    is, and a call on the class stores it: the product then holds 3.5, and
    the entry appended to the log records 3.5 as the new stock. *)
Lemma updateStock_on_class_accepts_fractional_stock :
  ∀ numberOfString,
    Num.lt 3 3.5 = true ∧ Num.lt 3.5 4 = true
    ∧ updateStockSchema numberOfString (body patchFractional)
        = Some {| stock := 3.5; reason := Some "Half a unit" |}
    ∧ ∃ w', InventoryController_updateStock numberOfString ThisClass
              patchFractional world0
              = (StockUpdated "prod_001" 5 3.5 T0, w')
            ∧ IProduct.stock <$> (MockProductService.findById "prod_001" w').1
                = Some 3.5%float
            ∧ ∃ e, logs w' = logs world0 ++ [e]
                   ∧ IInventoryLog.productId e = "prod_001"
                   ∧ IInventoryLog.previousStock e = 5%float
                   ∧ IInventoryLog.newStock e = 3.5%float
                   ∧ IInventoryLog.quantity e = (-1.5)%float.
Proof.
  intros numberOfString. split_and!; [done | done | by vm_compute |].
  eexists. split; [by vm_compute |]. split; [by vm_compute |].
  eexists. split; [by vm_compute |]. by vm_compute.
Qed.

(** C10. [createStockUpdate] adds the entry it returns at the end of the
    log, and nothing else. Called with the empty string as reason, or
    without a reason, the entry it stores has the reason "Stock update"; a
    reason that is not empty is stored as it is; so whatever the reason
    argument, the stored entry never has an empty reason, nor none. *)
Theorem createStockUpdate_empty_reason_defaults :
  ∀ pid wh uid prev new w,
    (∀ rsn,
       let '(e, w') :=
         MockInventoryLogService.createStockUpdate pid wh uid prev new rsn w in
       logs w' = logs w ++ [e]
       ∧ products w' = products w
       ∧ (rsn = Some "" ∨ rsn = None → IInventoryLog.reason e = Some "Stock update")
       ∧ (∀ s, rsn = Some s → s ≠ "" → IInventoryLog.reason e = Some s)
       ∧ IInventoryLog.reason e ≠ Some ""
       ∧ IInventoryLog.reason e ≠ None)
    ∧ IInventoryLog.reason
        (MockInventoryLogService.createStockUpdate pid wh uid prev new (Some "") w).1
        = Some "Stock update"
    ∧ IInventoryLog.reason
        (MockInventoryLogService.createStockUpdate pid wh uid prev new None w).1
        = Some "Stock update"
    ∧ ∀ rsn,
        IInventoryLog.reason
          (MockInventoryLogService.createStockUpdate pid wh uid prev new rsn w).1
          ≠ Some ""
        ∧ IInventoryLog.reason
            (MockInventoryLogService.createStockUpdate pid wh uid prev new rsn w).1
            ≠ None.
Proof.
  intros. rewrite !AuditLog.createStockUpdate_run.
  assert (∀ rsn, string_or rsn "Stock update" ≠ "") as Hnonempty.
  { intros [r|]; cbn; [| done]. by case_decide. }
  split_and!; [| done | done |].
  - intros rsn. rewrite AuditLog.createStockUpdate_run. cbn.
    split_and!; [done | done | | | |done].
    + by intros [-> | ->].
    + intros s -> Hs. cbn. by rewrite decide_False.
    + intros [= Hempty]. by apply (Hnonempty rsn).
  - intros rsn. rewrite AuditLog.createStockUpdate_run. cbn.
    split; [| done]. intros [= Hempty]. by apply (Hnonempty rsn).
Qed.

(** [findBySku] compares exactly: another case is another SKU. *)
Example findBySku_is_case_sensitive :
  IProduct._id <$> (MockProductService.findBySku "DX15-2025" world0).1
    = Some "prod_001"
  ∧ (MockProductService.findBySku "dx15-2025" world0).1 = None.
Proof. by vm_compute. Qed.

(** The schema of [updateStock] does not let an empty reason through:
    [Joi.string()] refuses the empty string. *)
Example updateStockSchema_rejects_empty_reason :
  updateStockSchema noStringNumbers (body (patchStock "prod_001" 10 "")) = None.
Proof. by vm_compute. Qed.

(** *** The routes at the requests of the test suite

    The routes register the methods as [asyncHandler(Controller.method)], so
    that every request which passes the authorisation reaches the method
    without a receiver. *)

(** C1. [PATCH /api/v1/inventory/prod_001] with a stock of 10, sent by a
    manager, while the laptop is in the store with a stock of 5: the
    request passes the authorisation and its body passes the schema, yet the
    route answers 500 'Internal server error'; the state is the one before
    the request, so the laptop still holds 5 and the log has no new entry. *)
Theorem patch_inventory_valid_update_is_answered_500 :
  ∀ numberOfString,
    AuthMiddleware.requireManagerOrAdmin restock = AuthMiddleware.Next
    ∧ IProduct.stock <$> (MockProductService.findById "prod_001" world0).1
        = Some 5%float
    ∧ updateStockSchema numberOfString (body restock)
        = Some {| stock := 10; reason := Some "Stock adjustment for testing" |}
    ∧ PATCH_inventory numberOfString restock world0 = (Handled InternalError, world0)
    ∧ status InternalError = 500%Z
    ∧ IProduct.stock <$>
        (MockProductService.findById "prod_001"
           (PATCH_inventory numberOfString restock world0).2).1
        = Some 5%float
    ∧ logs (PATCH_inventory numberOfString restock world0).2 = logs world0.
Proof. intros numberOfString. split_and!; by vm_compute. Qed.

(** C2. [PATCH /api/v1/inventory/nonexistent-id] with a stock of 10, sent by
    a manager: no product has the identifier and the body passes the schema,
    yet the route answers 500 'Internal server error', not [NotFound]; the
    state is the one before the request. *)
Theorem patch_inventory_unknown_product_is_answered_500 :
  ∀ numberOfString,
    AuthMiddleware.requireManagerOrAdmin patchUnknown = AuthMiddleware.Next
    ∧ (MockProductService.findById (params_id patchUnknown) world0).1 = None
    ∧ updateStockSchema numberOfString (body patchUnknown)
        = Some {| stock := 10; reason := Some "Test update" |}
    ∧ PATCH_inventory numberOfString patchUnknown world0
        = (Handled InternalError, world0)
    ∧ InternalError ≠ NotFound
    ∧ status InternalError = 500%Z ∧ status NotFound = 404%Z.
Proof. intros numberOfString. split_and!; by vm_compute. Qed.

(** C3. [PATCH /api/v1/inventory/prod_001] with a stock of -5, sent by a
    manager: the schema refuses the body, yet the route answers 500
    'Internal server error', not [ValidationError]; the state is the one
    before the request. *)
Theorem patch_inventory_negative_stock_is_answered_500 :
  ∀ numberOfString,
    AuthMiddleware.requireManagerOrAdmin patchNegative = AuthMiddleware.Next
    ∧ body patchNegative !! "stock" = Some (JsNumber (-5))
    ∧ Num.lt (-5) 0 = true
    ∧ updateStockSchema numberOfString (body patchNegative) = None
    ∧ PATCH_inventory numberOfString patchNegative world0
        = (Handled InternalError, world0)
    ∧ InternalError ≠ ValidationError
    ∧ status InternalError = 500%Z ∧ status ValidationError = 400%Z.
Proof. intros numberOfString. split_and!; by vm_compute. Qed.

(** C7. [POST /api/v1/products], sent by an admin, with the SKU of the
    laptop and with a SKU that no product has: either body passes the
    schema, and either request is answered 500 'Internal server error',
    neither [Conflict] nor with a created product; the state is the one
    before the request, so no product has the new SKU afterwards. *)
Theorem post_products_is_answered_500 :
  ∀ numberOfString,
    AuthMiddleware.requireAdmin postDuplicate = AuthMiddleware.Next
    ∧ AuthMiddleware.requireAdmin postFresh = AuthMiddleware.Next
    ∧ ProductData.sku <$> productSchema numberOfString (body postDuplicate)
        = Some "DX15-2025"
    ∧ ProductData.sku <$> productSchema numberOfString (body postFresh)
        = Some "TEST-001"
    ∧ IProduct._id <$> (MockProductService.findBySku "DX15-2025" world0).1
        = Some "prod_001"
    ∧ (MockProductService.findBySku "TEST-001" world0).1 = None
    ∧ POST_products numberOfString postDuplicate world0
        = (Handled InternalError, world0)
    ∧ POST_products numberOfString postFresh world0
        = (Handled InternalError, world0)
    ∧ (MockProductService.findBySku "TEST-001"
         (POST_products numberOfString postFresh world0).2).1 = None
    ∧ InternalError ≠ Conflict
    ∧ status InternalError = 500%Z ∧ status Conflict = 409%Z.
Proof. intros numberOfString. split_and!; by vm_compute. Qed.

(** C9. [PATCH /api/v1/inventory/prod_001] with a stock of 3.5, which lies
    strictly between 3 and 4, sent by a manager: the schema lets the body
    through, so no [ValidationError] is raised, but the route answers 500
    'Internal server error' and stores nothing: the laptop still holds 5 and
    the log has no new entry. *)
Theorem patch_inventory_fractional_stock_is_answered_500 :
  ∀ numberOfString,
    Num.lt 3 3.5 = true ∧ Num.lt 3.5 4 = true
    ∧ AuthMiddleware.requireManagerOrAdmin patchFractional = AuthMiddleware.Next
    ∧ updateStockSchema numberOfString (body patchFractional)
        = Some {| stock := 3.5; reason := Some "Half a unit" |}
    ∧ PATCH_inventory numberOfString patchFractional world0
        = (Handled InternalError, world0)
    ∧ InternalError ≠ ValidationError
    ∧ IProduct.stock <$>
        (MockProductService.findById "prod_001"
           (PATCH_inventory numberOfString patchFractional world0).2).1
        = Some 5%float
    ∧ logs (PATCH_inventory numberOfString patchFractional world0).2 = logs world0.
Proof. intros numberOfString. split_and!; by vm_compute. Qed.

(** *** The statements at concrete calls *)

(** C4 at a stock that goes from 5 to 10, an [add], and at one that goes
    from 10 to 5, an [update]. *)
Lemma stock_mutation_action_at_restock :
  IInventoryLog.action
    (MockInventoryLogService.createStockUpdate "prod_001" "wh_main"
       "user_manager_001" 5 10 (Some "Stock adjustment for testing") world0).1
    = add
  ∧ IInventoryLog.action
      (MockInventoryLogService.createStockUpdate "prod_001" "wh_main"
         "user_manager_001" 10 5 (Some "Sold") world0).1
    = update.
Proof.
  destruct (stock_mutation_action_is_add_or_update noStringNumbers) as [Hservice _].
  split.
  - apply (Hservice "prod_001" "wh_main" "user_manager_001" 5%float 10%float
             (Some "Stock adjustment for testing") world0).
    by vm_compute.
  - apply (Hservice "prod_001" "wh_main" "user_manager_001" 10%float 5%float
             (Some "Sold") world0).
    by vm_compute.
Defined.

(** C5 along a run in which a stock update and a product come in through
    the routes, the service records a stock update and the log is read: the
    first entry of the log is still the first one. *)
Lemma audit_log_keeps_first_entry :
  IInventoryLog._id <$>
    logs (events noStringNumbers utcCalendar
            [PatchInventory ThisUndefined restock;
             LogService (CallCreateStockUpdate "prod_001" "wh_main"
                           "user_manager_001" 5 10 None);
             LogService CallFindAll;
             LogService (CallGetStockMovements "prod_001" 30);
             PostProduct ThisUndefined postFresh]
            world0).2 !! 0
  = Some "log_001".
Proof.
  destruct (audit_log_is_append_only noStringNumbers utcCalendar) as (_ & _ & Hkeep).
  erewrite Hkeep; [| by vm_compute]. reflexivity.
Defined.

(** ** Further properties of the code *)

(** *** Roles and the authorisation middleware *)

(** X1. The role check is a total order on the three roles: a role that
    satisfies a requirement satisfies every requirement below it, of two
    roles one satisfies the other, and two roles that satisfy each other are
    the same role. *)
Theorem hasRole_is_a_total_order :
  (∀ a b c, AuthUtils.hasRole a b = true → AuthUtils.hasRole b c = true →
            AuthUtils.hasRole a c = true)
  ∧ (∀ a b, AuthUtils.hasRole a b = true ∨ AuthUtils.hasRole b a = true)
  ∧ (∀ a b, AuthUtils.hasRole a b = true → AuthUtils.hasRole b a = true → a = b).
Proof.
  split_and!.
  - by intros [] [] [].
  - intros [] []; cbn; auto.
  - by intros [] [].
Qed.

(** X2. [authorizeAny] lets a request through exactly when [authorize] does
    for one of the listed roles, and answers 401 exactly when the request
    has no user. With the hierarchy, the list [MANAGER, ADMIN] decides as
    the single role [MANAGER] does, and the list of all three roles lets
    every authenticated request through. *)
Theorem authorizeAny_decides_as_authorize :
  (∀ roles req,
     AuthMiddleware.authorizeAny roles req = AuthMiddleware.Next
     ↔ ∃ r, r ∈ roles ∧ AuthMiddleware.authorize r req = AuthMiddleware.Next)
  ∧ (∀ roles req,
       AuthMiddleware.authorizeAny roles req
         = AuthMiddleware.Reject 401 "Authentication required"
       ↔ user req = None)
  ∧ (∀ req, AuthMiddleware.requireManagerOrAdmin req
              = AuthMiddleware.requireManager req)
  ∧ (∀ req, AuthMiddleware.requireViewerOrHigher req = AuthMiddleware.Next
            ↔ is_Some (user req)).
Proof.
  split_and!.
  - intros roles req. unfold AuthMiddleware.authorizeAny, AuthMiddleware.authorize.
    destruct (user req) as [u|].
    + destruct (AuthUtils.hasAnyRole (role u) roles) eqn:Hany.
      * apply hasAnyRole_iff in Hany as (r & Hr & Hhas).
        split; [| done]. intros _. exists r. by rewrite Hhas.
      * split; [done |]. intros (r & Hr & Hnext).
        destruct (AuthUtils.hasRole (role u) r) eqn:Hhas; [| done].
        assert (AuthUtils.hasAnyRole (role u) roles = true) as Hany'
          by (apply hasAnyRole_iff; eauto).
        congruence.
    + split; [done |]. by intros (r & _ & ?).
  - intros roles req. unfold AuthMiddleware.authorizeAny.
    destruct (user req) as [u|]; [| done].
    by destruct (AuthUtils.hasAnyRole _ _).
  - intros req. unfold AuthMiddleware.requireManagerOrAdmin,
      AuthMiddleware.requireManager, AuthMiddleware.authorizeAny,
      AuthMiddleware.authorize.
    destruct (user req) as [u|]; [| done]. by destruct (role u).
  - intros req. unfold AuthMiddleware.requireViewerOrHigher,
      AuthMiddleware.authorizeAny.
    destruct (user req) as [u|].
    + split; [by eauto |]. intros _. by destruct (role u).
    + split; [done |]. by intros [? ?].
Qed.

(** *** The error handler *)

Lemma prefix_app_self n s : String.prefix n (n +:+ s) = true.
Proof.
  induction n as [| c n IH]; [by destruct s |].
  change (String c n +:+ s) with (String c (n +:+ s)). cbn.
  by destruct (Ascii.ascii_dec c c).
Qed.

Lemma includes_app n a b : includes n b = true → includes n (a +:+ b) = true.
Proof.
  intros Hb. induction a as [| c a IH]; [done |].
  change (String c a +:+ b) with (String c (a +:+ b)). cbn [includes].
  rewrite IH. by destruct (String.prefix n (String c (a +:+ b))).
Qed.

Lemma includes_self_app n s : includes n (n +:+ s) = true.
Proof.
  pose proof (prefix_app_self n s) as H.
  destruct (n +:+ s); cbn [includes]; by rewrite H.
Qed.

(** X3. Whatever the URL, the error that [notFound] hands on is answered by
    [handle] with status 404 and the message "Route <url> not found". *)
Theorem notFound_is_answered_404 originalUrl :
  ErrorHandler.handle (ErrorHandler.notFound originalUrl)
    = (404%Z, "Route " +:+ originalUrl +:+ " not found").
Proof.
  unfold ErrorHandler.handle, ErrorHandler.notFound. cbn -[includes String.app].
  assert (includes "not found" ("Route " +:+ originalUrl +:+ " not found") = true)
    as ->; [| done].
  apply includes_app, includes_app.
  change " not found" with (" " +:+ "not found").
  apply includes_app. apply (includes_self_app "not found" "").
Qed.

(** *** Deleting and updating products *)

Module StoreFacts.
Import IProduct MockProductService.

Lemma delete_missing id' w :
  list_find (λ p, _id p = id') (products w) = None → delete id' w = (false, w).
Proof. intros H. unfold delete. run. by rewrite H. Qed.

Lemma delete_found id' w i p :
  list_find (λ p, _id p = id') (products w) = Some (i, p) →
  delete id' w =
    (true, {| products := take i (products w) ++ drop (S i) (products w);
              logs := logs w; clock := clock w; reads := reads w |}).
Proof. intros H. unfold delete. run. by rewrite H. Qed.

Lemma update_missing id' d w :
  list_find (λ p, _id p = id') (products w) = None → update id' d w = (None, w).
Proof. intros H. unfold update. run. by rewrite H. Qed.

Lemma update_found id' d w i p :
  list_find (λ p, _id p = id') (products w) = Some (i, p) →
  update id' d w =
    (Some (merge p d (clock w (reads w))),
     {| products := <[i := merge p d (clock w (reads w))]> (products w);
        logs := logs w; clock := clock w; reads := S (reads w) |}).
Proof. intros H. unfold update. run. by rewrite H. Qed.

(** Replacing one element of a list without repetition by a value that is
    not in the list, or by itself, leaves it without repetition. *)
Lemma NoDup_insert_fresh {A} (l : list A) i x :
  NoDup l → x ∉ l → NoDup (<[i := x]> l).
Proof.
  intros Hl. revert i. induction Hl as [| y l Hy Hl IH]; intros i Hx; [constructor |].
  apply not_elem_of_cons in Hx as [Hxy Hx].
  destruct i as [| i]; simpl.
  - by constructor.
  - constructor; [| by apply IH].
    intros Hin. apply list_elem_of_lookup in Hin as [j Hj].
    destruct (decide (i = j)) as [-> | Hne].
    + pose proof (lookup_lt_Some _ _ _ Hj) as Hlen. rewrite length_insert in Hlen.
      rewrite list_lookup_insert_eq in Hj by done. congruence.
    + rewrite list_lookup_insert_ne in Hj by done.
      apply Hy. by eapply list_elem_of_lookup_2.
Qed.
End StoreFacts.

(** X4. [MockProductService.delete] answers [true] exactly when a product of
    the store has the identifier. It then takes one product out, the first
    with that identifier: the products before it and after it stay as they
    are, in their order, also those after it that have the same
    identifier. Otherwise the state is left as it is. The log, the clock and
    the products with another identifier are never touched. *)
Theorem delete_takes_out_one_product id' w :
  let '(deleted, w') := MockProductService.delete id' w in
  (deleted = true ↔ ∃ p, p ∈ products w ∧ IProduct._id p = id')
  ∧ length (products w') = length (products w) - (if deleted then 1 else 0)
  ∧ filter (λ p, IProduct._id p ≠ id') (products w')
      = filter (λ p, IProduct._id p ≠ id') (products w)
  ∧ logs w' = logs w
  ∧ clock w' = clock w ∧ reads w' = reads w
  ∧ (deleted = false → products w' = products w)
  ∧ (deleted = true →
     ∃ i p, products w !! i = Some p
            ∧ IProduct._id p = id'
            ∧ (∀ j q, products w !! j = Some q → j < i → IProduct._id q ≠ id')
            ∧ products w' = take i (products w) ++ drop (S i) (products w)).
Proof.
  destruct (list_find (λ p, IProduct._id p = id') (products w)) as [[i p]|] eqn:Hfind.
  - rewrite (StoreFacts.delete_found _ _ _ _ Hfind). cbn.
    apply list_find_Some in Hfind as (Hi & Hp & Hleast).
    split_and!; [| | | done | done | done | done |].
    + split; [| done]. intros _. exists p. split; [| done].
      by eapply list_elem_of_lookup_2.
    + rewrite length_app, length_take, length_drop.
      apply lookup_lt_Some in Hi. lia.
    + rewrite <- (take_drop_middle _ _ _ Hi) at 3.
      rewrite !filter_app, filter_cons_False; [done |]. by intros ?.
    + intros _. exists i, p. split_and!; [done | done | | done].
      intros j q Hj Hlt. by apply (Hleast j q).
  - rewrite (StoreFacts.delete_missing _ _ Hfind).
    split_and!; [| lia | done | done | done | done | done | done].
    split; [done |]. intros (p & Hin & Hp).
    apply list_find_None in Hfind. rewrite Forall_forall in Hfind.
    by destruct (Hfind p Hin).
Qed.

(** X5. When the identifiers of the store are pairwise distinct, a product
    that has been deleted is not found any more. *)
Theorem delete_then_findById_finds_nothing id' w :
  NoDup (IProduct._id <$> products w) →
  (MockProductService.findById id' (MockProductService.delete id' w).2).1 = None.
Proof.
  intros Hnodup. rewrite ProductStore.findById_run. cbn -[list_find].
  destruct (list_find (λ p, IProduct._id p = id') (products w)) as [[i p]|] eqn:Hfind.
  - rewrite (StoreFacts.delete_found _ _ _ _ Hfind). cbn -[list_find].
    apply list_find_Some in Hfind as (Hi & Hp & Hleast).
    rewrite (proj2 (list_find_None _ _)); [done |].
    apply Forall_forall. intros q Hq Hqid.
    apply list_elem_of_lookup in Hq as [j Hj].
    assert (j < i ∨ i ≤ j) as [Hlt | Hge] by lia.
    + rewrite lookup_app_l in Hj
        by (rewrite length_take; apply lookup_lt_Some in Hi; lia).
      rewrite lookup_take_lt in Hj by done. by apply (Hleast j q).
    + rewrite lookup_app_r in Hj
        by (rewrite length_take; apply lookup_lt_Some in Hi; lia).
      rewrite length_take, lookup_drop in Hj.
      apply lookup_lt_Some in Hi as Hlen.
      replace (S i + (j - i `min` length (products w))) with (S j) in Hj by lia.
      assert (i = S j); [| lia].
      eapply (NoDup_lookup _ _ _ id' Hnodup);
        rewrite list_lookup_fmap; [by rewrite Hi; cbn; rewrite Hp
                                  | by rewrite Hj; cbn; rewrite Hqid].
  - rewrite (StoreFacts.delete_missing _ _ Hfind). cbn -[list_find].
    by rewrite Hfind.
Qed.

(** X5 on the store as it is initialised. *)
Lemma delete_then_findById_at_world0 :
  (MockProductService.findById "prod_003"
     (MockProductService.delete "prod_003" world0).2).1 = None.
Proof.
  apply (delete_then_findById_finds_nothing "prod_003" world0).
  vm_compute. repeat (constructor; [by rewrite ?list_elem_of_In; cbn; intuition discriminate |]).
  constructor.
Defined.

Section ProductRoutes.

Variable numberOfString : string → option number.

Local Abbreviation updateProductSchema := (updateProductSchema numberOfString).
Local Abbreviation updateProduct := (ProductController_updateProduct numberOfString).

Lemma optional_Joi_string_nonempty field r :
  optional Joi_string field = Some r → r ≠ Some "".
Proof.
  destruct field as [v|]; cbn; [| by intros [= <-]].
  destruct v; cbn; try done. case_decide; cbn; [done |]. by intros [= <-] [=].
Qed.

(** What passes [updateProductSchema] has no identifier and no creation
    date, and its SKU, when given, is not empty. *)
Lemma updateProductSchema_value o value :
  updateProductSchema o = Some value →
  ProductPatch._id value = None ∧ ProductPatch.createdAt value = None
  ∧ ProductPatch.sku value ≠ Some "".
Proof.
  unfold updateProductSchema. destruct (only_keys _ _); [| done]. intros Hs.
  destruct (optional Joi_string (o !! "name")) as [name'|]; [| done].
  destruct (optional Joi_string (o !! "sku")) as [sku'|] eqn:Hsku; [| done].
  cbn in Hs.
  destruct (optional _ (o !! "price")) as [price'|]; [| done].
  destruct (optional Joi_string (o !! "category")) as [category'|]; [| done].
  cbn in Hs.
  destruct (optional _ (o !! "stock")) as [stock'|]; [| done].
  destruct (optional _ (o !! "minStock")) as [minStock'|]; [| done].
  cbn in Hs.
  destruct (optional Joi_string (o !! "description")) as [description'|]; [| done].
  destruct (optional Joi_string (o !! "warehouseId")) as [warehouseId'|]; [| done].
  cbn in Hs. injection Hs as <-. cbn.
  split_and!; [done | done |]. by eapply optional_Joi_string_nonempty.
Qed.

Lemma updateProduct_without_receiver req w :
  updateProduct ThisUndefined req w = (Failure 500 "Internal server error", w).
Proof. reflexivity. Qed.

(** What one call of [updateProduct] on its class does, case by case. The
    answer 'Failed to update product' never shows. *)
Lemma updateProduct_run req w :
  updateProduct ThisClass req w =
    match updateProductSchema (body req) with
    | None => (Failure 400 "Validation error", w)
    | Some value =>
        match list_find (λ p, IProduct._id p = params_id req) (products w) with
        | None => (Failure 404 "Product not found", w)
        | Some (i, p) =>
            match (if skuChanges value p
                   then list_find
                          (λ q, IProduct.sku q = default "" (ProductPatch.sku value))
                          (products w)
                   else None) with
            | Some _ => (Failure 409 "Product with this SKU already exists", w)
            | None =>
                let p' := MockProductService.merge p value (clock w (reads w)) in
                (Success "Product updated successfully" (Some p'),
                 {| products := <[i := p']> (products w); logs := logs w;
                    clock := clock w; reads := S (reads w) |})
            end
        end
    end.
Proof.
  unfold ProductController_updateProduct, this_field.
  destruct (updateProductSchema (body req)) as [value|]; [| done].
  rewrite bind_run, ProductStore.findById_run. cbn -[list_find].
  destruct (list_find _ (products w)) as [[i p]|] eqn:Hfind; [| done].
  cbn -[list_find]. rewrite bind_run.
  destruct (skuChanges value p).
  - rewrite ProductStore.findBySku_run. cbn -[list_find].
    destruct (list_find (λ q, IProduct.sku q = _) (products w)) as [[j q]|];
      cbn -[list_find]; [done |].
    rewrite bind_run.
    by rewrite (StoreFacts.update_found _ _ _ _ _ Hfind).
  - cbn -[list_find]. rewrite bind_run.
    by rewrite (StoreFacts.update_found _ _ _ _ _ Hfind).
Qed.

(** Called on its class, [updateProduct] fails with 400, 404 or 409 and then
    leaves the state as it was; when it succeeds, one product of the store,
    the first with the identifier of the request, is replaced by the product
    sent back, which keeps its identifier and its creation date and takes
    the reading of the clock as update date. *)
Lemma updateProduct_on_class_answers req w :
  let '(r, w') := updateProduct ThisClass req w in
  logs w' = logs w
  ∧ length (products w') = length (products w)
  ∧ match r with
    | Failure s _ => w' = w ∧ (s = 400 ∨ s = 404 ∨ s = 409)%Z
    | Success _ data =>
        ∃ i p p',
          list_find (λ p, IProduct._id p = params_id req) (products w) = Some (i, p)
          ∧ data = Some p'
          ∧ products w' = <[i := p']> (products w)
          ∧ IProduct._id p' = IProduct._id p
          ∧ IProduct.createdAt p' = IProduct.createdAt p
          ∧ IProduct.updatedAt p' = clock w (reads w)
    end.
Proof.
  rewrite updateProduct_run.
  destruct (updateProductSchema (body req)) as [value|] eqn:Hvalue; [| by auto].
  destruct (list_find _ (products w)) as [[i p]|] eqn:Hfind; [| by auto 6].
  destruct (if skuChanges value p then _ else _) as [[j q]|]; [by auto 6 |].
  cbn. rewrite length_insert. split_and!; [done | done |].
  apply updateProductSchema_value in Hvalue as (Hid & Hcreated & _).
  exists i, p, (MockProductService.merge p value (clock w (reads w))).
  cbn. by rewrite Hid, Hcreated.
Qed.

(** X6. No [PUT /api/v1/products/:id] changes the state, and none is
    answered with an updated product. The request of a user who is not an
    admin is answered 403, and the request of an admin is answered 500
    'Internal server error', whatever the identifier and the body: the
    route calls [updateProduct] without a receiver. *)
Theorem put_products_is_answered_500 req w :
  (PUT_products numberOfString req w).2 = w
  ∧ (∀ u, user req = Some u →
          (PUT_products numberOfString req w).1
            = (if AuthUtils.hasRole (role u) ADMIN
               then Handled (Failure 500 "Internal server error")
               else Refused 403 "Insufficient permissions"))
  ∧ ProductController_updateProduct numberOfString ThisUndefined req w
      = (Failure 500 "Internal server error", w).
Proof.
  unfold PUT_products, route, AuthMiddleware.requireAdmin, AuthMiddleware.authorize.
  destruct (user req) as [u|]; [| by split_and!].
  split_and!; [by destruct (AuthUtils.hasRole _ _) | | done].
  intros u' [= <-]. by destruct (AuthUtils.hasRole _ _).
Qed.

(** X7. [deleteProduct] answers 404, leaving the state as it was, exactly
    when no product has the identifier; otherwise it answers 200 and the
    store has one product less. The answer 'Failed to delete product' never
    shows. *)
Theorem deleteProduct_answers req w :
  let '(r, w') := ProductController_deleteProduct req w in
  logs w' = logs w
  ∧ match r with
    | Failure s _ =>
        s = 404%Z ∧ w' = w
        ∧ ∀ p, p ∈ products w → IProduct._id p ≠ params_id req
    | Success _ data =>
        data = None
        ∧ S (length (products w')) = length (products w)
        ∧ ∃ p, p ∈ products w ∧ IProduct._id p = params_id req
    end.
Proof.
  unfold ProductController_deleteProduct.
  rewrite bind_run, ProductStore.findById_run. cbn -[list_find].
  destruct (list_find _ (products w)) as [[i p]|] eqn:Hfind; cbn -[list_find].
  - rewrite bind_run, (StoreFacts.delete_found _ _ _ _ Hfind). cbn.
    apply list_find_Some in Hfind as (Hi & Hp & _).
    split_and!; [done | done | |].
    + rewrite length_app, length_take, length_drop.
      apply lookup_lt_Some in Hi. lia.
    + exists p. split; [by eapply list_elem_of_lookup_2 | done].
  - split_and!; [done | done | done |].
    apply list_find_None in Hfind. by rewrite Forall_forall in Hfind.
Qed.

End ProductRoutes.

(** *** SKUs stay distinct *)

Section SkuInvariant.

Variable numberOfString : string → option number.

Local Abbreviation updateProduct := (ProductController_updateProduct numberOfString).
Local Abbreviation createProduct := (ProductController_createProduct numberOfString).
Local Abbreviation updateStock := (InventoryController_updateStock numberOfString).

Lemma sublist_fmap_sku (l k : list IProduct.t) :
  l `sublist_of` k → (IProduct.sku <$> l) `sublist_of` (IProduct.sku <$> k).
Proof. induction 1; cbn; by constructor. Qed.

Lemma createProduct_skus this req w :
  NoDup (IProduct.sku <$> products w) →
  NoDup (IProduct.sku <$> products (createProduct this req w).2).
Proof.
  intros Hnodup. destruct this; [| done].
  unfold ProductController_createProduct, this_field.
  destruct (productSchema numberOfString (body req)) as [value|]; [| done].
  rewrite bind_run, ProductStore.findBySku_run. cbn -[list_find].
  destruct (list_find _ (products w)) as [[i q]|] eqn:Hfind; [done |].
  cbn -[list_find]. rewrite bind_run, ProductStore.product_create_run.
  cbn -[pretty]. rewrite fmap_app. apply NoDup_app. split_and!; [done | | ].
  - intros s Hs [-> | []%elem_of_nil]%elem_of_cons.
    apply list_elem_of_fmap in Hs as (q & Hq & Hin).
    apply list_find_None in Hfind. rewrite Forall_forall in Hfind.
    by destruct (Hfind q Hin).
  - apply NoDup_singleton.
Qed.

Lemma updateStock_skus this req w :
  IProduct.sku <$> products (updateStock this req w).2 = IProduct.sku <$> products w.
Proof.
  destruct this; [| done].
  rewrite updateStock_run.
  destruct (updateStockSchema numberOfString (body req)) as [value|]; [| done].
  destruct (list_find _ (products w)) as [[i p]|] eqn:Hfind; [| done].
  apply list_find_Some in Hfind as (Hi & _ & _).
  assert ((IProduct.sku <$> products w) !! i = Some (IProduct.sku p)) as Hsku
    by (by rewrite list_lookup_fmap, Hi).
  destruct (user req); cbn; by rewrite list_fmap_insert, list_insert_id.
Qed.

Lemma deleteProduct_skus req w :
  NoDup (IProduct.sku <$> products w) →
  NoDup (IProduct.sku <$> products (ProductController_deleteProduct req w).2).
Proof.
  intros Hnodup. unfold ProductController_deleteProduct.
  rewrite bind_run, ProductStore.findById_run. cbn -[list_find].
  destruct (list_find _ (products w)) as [[i p]|] eqn:Hfind; [| done].
  cbn -[list_find]. rewrite bind_run, (StoreFacts.delete_found _ _ _ _ Hfind). cbn.
  rewrite <- delete_take_drop.
  eapply sublist_NoDup; [exact Hnodup |]. apply sublist_fmap_sku, sublist_delete.
Qed.

Lemma updateProduct_skus this req w :
  NoDup (IProduct.sku <$> products w) →
  NoDup (IProduct.sku <$> products (updateProduct this req w).2).
Proof.
  intros Hnodup. destruct this; [| done]. rewrite updateProduct_run.
  destruct (updateProductSchema numberOfString (body req)) as [value|] eqn:Hvalue;
    [| done].
  destruct (list_find _ (products w)) as [[i p]|] eqn:Hfind; [| done].
  apply updateProductSchema_value in Hvalue as (_ & _ & Hnonempty).
  apply list_find_Some in Hfind as (Hi & _ & _).
  assert ((IProduct.sku <$> products w) !! i = Some (IProduct.sku p)) as Hsku
    by (by rewrite list_lookup_fmap, Hi).
  unfold skuChanges. destruct (ProductPatch.sku value) as [s|] eqn:Hs; cbn.
  - destruct (decide (s ≠ "")) as [Hne | Heq]; [| by destruct Heq; intros ->].
    rewrite (bool_decide_eq_true_2 _ Hne). cbn.
    destruct (decide (s ≠ IProduct.sku p)) as [Hdiff | Hsame].
    + rewrite (bool_decide_eq_true_2 _ Hdiff).
      destruct (list_find _ (products w)) as [[j q]|] eqn:Hconflict; [done |].
      cbn. rewrite list_fmap_insert. cbn. rewrite Hs. cbn.
      apply StoreFacts.NoDup_insert_fresh; [done |].
      intros (q & Hq & Hin)%list_elem_of_fmap.
      apply list_find_None in Hconflict. rewrite Forall_forall in Hconflict.
      by destruct (Hconflict q Hin).
    + rewrite (bool_decide_eq_false_2 _ Hsame). cbn.
      rewrite list_fmap_insert. cbn. rewrite Hs. cbn.
      destruct (decide (s = IProduct.sku p)) as [-> | ?]; [| by destruct Hsame].
      by rewrite list_insert_id.
  - rewrite list_fmap_insert. cbn. rewrite Hs. cbn. by rewrite list_insert_id.
Qed.

(** X8. When the SKUs of the store are pairwise distinct before a request,
    they are after it, whatever the request, whichever of [createProduct],
    [updateProduct], [deleteProduct] and [updateStock] handles it, and
    whatever receiver the method is called with. *)
Theorem controllers_keep_skus_distinct this req w :
  NoDup (IProduct.sku <$> products w) →
  NoDup (IProduct.sku <$>
           products (ProductController_createProduct numberOfString this req w).2)
  ∧ NoDup (IProduct.sku <$>
             products (ProductController_updateProduct numberOfString this req w).2)
  ∧ NoDup (IProduct.sku <$> products (ProductController_deleteProduct req w).2)
  ∧ NoDup (IProduct.sku <$>
             products (InventoryController_updateStock numberOfString this req w).2).
Proof.
  intros Hnodup. split_and!.
  - by apply createProduct_skus.
  - by apply updateProduct_skus.
  - by apply deleteProduct_skus.
  - by rewrite updateStock_skus.
Qed.

End SkuInvariant.

(** The SKUs of the store as it is initialised are distinct. *)
Lemma initial_skus_distinct : NoDup (IProduct.sku <$> products world0).
Proof.
  vm_compute.
  repeat (constructor; [by rewrite ?list_elem_of_In; cbn; intuition discriminate |]).
  constructor.
Defined.

(** X8 at the request of an admin to delete the mouse. *)
Lemma controllers_keep_skus_distinct_at_world0 :
  NoDup (IProduct.sku <$>
           products (ProductController_deleteProduct
                       {| params_id := "prod_002"; body := ∅; user := Some admin |}
                       world0).2).
Proof.
  destruct (controllers_keep_skus_distinct noStringNumbers ThisUndefined
              {| params_id := "prod_002"; body := ∅; user := Some admin |}
              world0 initial_skus_distinct) as (_ & _ & Hdelete & _).
  exact Hdelete.
Defined.

(** *** Reading the audit log *)

Module SortFacts.
Section Sort.
Context {A : Type} (cmp : A → A → Z).

Lemma sort_insert_perm x l : sort_insert cmp x l ≡ₚ x :: l.
Proof.
  induction l as [| y l IH]; cbn; [done |].
  destruct (cmp x y <=? 0)%Z; [done |]. by rewrite IH, Permutation_swap.
Qed.

Lemma Array_sort_perm l : Array_sort cmp l ≡ₚ l.
Proof.
  induction l as [| x l IH]; cbn; [done |].
  by rewrite sort_insert_perm, IH.
Qed.

(** [x] may stand before [y]. *)
Local Abbreviation before := (λ x y, (cmp x y ≤ 0)%Z) (only parsing).

Hypothesis before_total : ∀ x y, before x y ∨ before y x.
Hypothesis before_trans : ∀ x y z, before x y → before y z → before x z.

Lemma sort_insert_sorted x l :
  StronglySorted before l → StronglySorted before (sort_insert cmp x l).
Proof using before_total before_trans.
  induction 1 as [| y l Hl IH Hy]; cbn.
  - by repeat constructor.
  - destruct (Z.leb_spec (cmp x y) 0) as [Hxy | Hxy].
    + constructor; [by constructor |]. constructor; [done |].
      eapply Forall_impl; [exact Hy |]. intros z Hz. by eapply before_trans.
    + constructor; [done |].
      rewrite sort_insert_perm. constructor; [| done].
      destruct (before_total x y) as [Hb | Hb]; [lia | done].
Qed.

Lemma Array_sort_sorted l : StronglySorted before (Array_sort cmp l).
Proof using before_total before_trans.
  induction l as [| x l IH]; cbn; [constructor |]. by apply sort_insert_sorted.
Qed.

(** The sort is stable: elements that share a key which the comparison
    does not tell apart keep their order. *)
Lemma sort_insert_stable {K} `{EqDecision K} (key : A → K) (k : K) x l :
  (∀ y, key y = key x → before x y) →
  filter (λ y, key y = k) (sort_insert cmp x l) = filter (λ y, key y = k) (x :: l).
Proof.
  intros Hkey. induction l as [| y l IH]; cbn; [done |].
  destruct (Z.leb_spec (cmp x y) 0) as [Hxy | Hxy]; [done |].
  rewrite filter_cons, IH, !filter_cons.
  destruct (decide (key y = k)) as [Hy | Hy], (decide (key x = k)) as [Hx | Hx];
    try done.
  assert (key y = key x) as Heq by congruence. apply Hkey in Heq. lia.
Qed.

Lemma Array_sort_stable {K} `{EqDecision K} (key : A → K) (k : K) l :
  (∀ x y, key y = key x → before x y) →
  filter (λ y, key y = k) (Array_sort cmp l) = filter (λ y, key y = k) l.
Proof.
  intros Hkey. induction l as [| x l IH]; [done |].
  change (Array_sort cmp (x :: l)) with (sort_insert cmp x (Array_sort cmp l)).
  rewrite sort_insert_stable by auto. by rewrite !filter_cons, IH.
Qed.
End Sort.
End SortFacts.

Lemma StronglySorted_weaken {A} (R R' : A → A → Prop) l :
  (∀ x y, R x y → R' x y) → StronglySorted R l → StronglySorted R' l.
Proof.
  intros HR. induction 1 as [| x l Hl IH Hx]; constructor; [done |].
  eapply Forall_impl; [exact Hx | auto].
Qed.

Lemma newestFirst_sorted l :
  StronglySorted newerOrSame (Array_sort MockInventoryLogService.newestFirst l).
Proof.
  eapply StronglySorted_weaken;
    [| apply (SortFacts.Array_sort_sorted MockInventoryLogService.newestFirst)].
  - intros x y. unfold newerOrSame, MockInventoryLogService.newestFirst. lia.
  - intros x y. unfold MockInventoryLogService.newestFirst. lia.
  - intros x y z. unfold MockInventoryLogService.newestFirst. lia.
Qed.

(** X9. [findAll] returns every entry of the log, each as often as it is in
    the log, ordered from the newest to the oldest; entries of one and the
    same time keep the order they have in the log; the log itself is left
    as it is. *)
Theorem findAll_is_the_log_newest_first w :
  let '(result, w') := MockInventoryLogService.findAll w in
  w' = w
  ∧ result ≡ₚ logs w
  ∧ StronglySorted newerOrSame result
  ∧ ∀ t, filter (λ e, IInventoryLog.timestamp e = t) result
         = filter (λ e, IInventoryLog.timestamp e = t) (logs w).
Proof.
  cbn. split_and!; [done | apply SortFacts.Array_sort_perm | apply newestFirst_sorted |].
  intros t. apply SortFacts.Array_sort_stable.
  intros x y Hxy. unfold MockInventoryLogService.newestFirst. lia.
Qed.

Lemma List_filter_bool_decide {A} (P : A → Prop) `{∀ x, Decision (P x)} (l : list A) :
  List.filter (λ x, bool_decide (P x)) l = filter P l.
Proof.
  induction l as [| x l IH]; [done |]. cbn [List.filter]. rewrite filter_cons, IH.
  destruct (decide (P x)) as [Hx | Hx].
  - by rewrite (bool_decide_eq_true_2 _ Hx).
  - by rewrite (bool_decide_eq_false_2 _ Hx).
Qed.

(** X10. [findByProduct] returns exactly the entries of the log that belong
    to the product, each as often as it is in the log, from the newest to
    the oldest; entries of one and the same time keep the order they have in
    the log; the log itself is left as it is. *)
Theorem findByProduct_is_the_products_history productId' w :
  let '(result, w') := MockInventoryLogService.findByProduct productId' w in
  let history := filter (λ e, IInventoryLog.productId e = productId') (logs w) in
  w' = w
  ∧ result ≡ₚ history
  ∧ (∀ e, e ∈ result ↔ e ∈ logs w ∧ IInventoryLog.productId e = productId')
  ∧ StronglySorted newerOrSame result
  ∧ ∀ t, filter (λ e, IInventoryLog.timestamp e = t) result
         = filter (λ e, IInventoryLog.timestamp e = t) history.
Proof.
  assert (MockInventoryLogService.findByProduct productId' w
          = (Array_sort MockInventoryLogService.newestFirst
               (filter (λ e, IInventoryLog.productId e = productId') (logs w)), w))
    as ->.
  { rewrite <- List_filter_bool_decide. reflexivity. }
  cbn zeta.
  split_and!; [done | apply SortFacts.Array_sort_perm | | apply newestFirst_sorted |].
  - intros e. rewrite SortFacts.Array_sort_perm, list_elem_of_filter. tauto.
  - intros t. apply SortFacts.Array_sort_stable.
    intros x y Hxy. unfold MockInventoryLogService.newestFirst. lia.
Qed.

(** The order of what [getStockMovements] returns: [a] is older than [b],
    or as old. *)
Lemma oldestFirst_sorted l :
  StronglySorted (λ a b, (IInventoryLog.timestamp a ≤ IInventoryLog.timestamp b)%Z)
    (Array_sort MockInventoryLogService.oldestFirst l).
Proof.
  eapply StronglySorted_weaken;
    [| apply (SortFacts.Array_sort_sorted MockInventoryLogService.oldestFirst)].
  - intros x y. unfold MockInventoryLogService.oldestFirst. lia.
  - intros x y. unfold MockInventoryLogService.oldestFirst. lia.
  - intros x y z. unfold MockInventoryLogService.oldestFirst. lia.
Qed.

(** X29. [getStockMovements] reads the clock once and changes neither store.
    Whatever the calendar of the host, it returns the entries of the product
    that are not older than the cutoff the calendar gives for the reading of
    the clock and the number of days, each as often as it is in the log,
    from the oldest to the newest; and it returns nothing when the cutoff is
    not a valid date. *)
Theorem getStockMovements_is_the_recent_history setDateBack productId' days w :
  let '(result, w') :=
    MockInventoryLogService.getStockMovements setDateBack productId' days w in
  products w' = products w ∧ logs w' = logs w
  ∧ clock w' = clock w ∧ reads w' = S (reads w)
  ∧ match setDateBack (clock w (reads w)) days with
    | None => result = []
    | Some cutoff =>
        result ≡ₚ filter (λ e, IInventoryLog.productId e = productId'
                               ∧ (cutoff ≤ IInventoryLog.timestamp e)%Z) (logs w)
        ∧ StronglySorted
            (λ a b, (IInventoryLog.timestamp a ≤ IInventoryLog.timestamp b)%Z)
            result
    end.
Proof.
  unfold MockInventoryLogService.getStockMovements. run.
  split_and!; [done | done | done | done |].
  destruct (setDateBack (clock w (reads w)) days) as [cutoff|].
  - split; [| apply oldestFirst_sorted].
    change (foldr (sort_insert ?cmp) [] ?l) with (Array_sort cmp l).
    rewrite SortFacts.Array_sort_perm, <- List_filter_bool_decide.
    erewrite filter_ext; [done |]. intros e. cbn.
    apply eq_true_iff_eq. rewrite andb_true_iff, !bool_decide_eq_true.
    by rewrite Z.geb_le.
  - assert (∀ l : list IInventoryLog.t,
              List.filter (λ e, bool_decide (IInventoryLog.productId e = productId')
                                && false) l = []) as ->; [| done].
    induction l as [| e l IH]; [done |]. cbn. by rewrite andb_false_r.
Qed.

(** X29 on a host in UTC, for the laptop and the last 700 days before
    [T0]. *)
Example getStockMovements_at_world0 :
  utcCalendar T0 700 = Some 1699520000000%Z
  ∧ IInventoryLog._id <$>
      (MockInventoryLogService.getStockMovements utcCalendar "prod_001" 700 world0).1
    = ["log_001"; "log_004"]
  ∧ (MockInventoryLogService.getStockMovements utcCalendar "prod_001" 30 world0).1
    = [].
Proof. by vm_compute. Qed.

(** X11. [findRecent(limit)] returns the first [limit] entries of what
    [findAll] returns, all of them when there are fewer; with a negative
    [limit] it returns all but the last [-limit] of them instead, the oldest
    being left out. *)
Theorem findRecent_takes_from_findAll limit w :
  let all := (MockInventoryLogService.findAll w).1 in
  let result := (MockInventoryLogService.findRecent limit w).1 in
  let n := Z.of_nat (length (logs w)) in
  result = take (length result) all
  ∧ Z.of_nat (length result)
      = (if (limit <? 0)%Z then Z.max (n + limit) 0 else Z.min limit n).
Proof.
  change (MockInventoryLogService.findRecent limit w).1
    with (slice0 limit (Array_sort MockInventoryLogService.newestFirst (logs w))).
  change (MockInventoryLogService.findAll w).1
    with (Array_sort MockInventoryLogService.newestFirst (logs w)).
  cbn zeta. unfold slice0.
  assert (length (Array_sort MockInventoryLogService.newestFirst (logs w))
          = length (logs w)) as Hlen
    by (by rewrite SortFacts.Array_sort_perm).
  rewrite Hlen, length_take, Hlen. split.
  - destruct (Nat.min_spec
                (Z.to_nat (if (limit <? 0)%Z
                           then Z.max (Z.of_nat (length (logs w)) + limit) 0
                           else limit))
                (length (logs w))) as [[? ->] | [? ->]]; [done |].
    by rewrite !take_ge by lia.
  - destruct (Z.ltb_spec limit 0); lia.
Qed.

Lemma Action_string_inj a b : Action_string a = Action_string b → a = b.
Proof. by destruct a, b. Qed.

Lemma count_by_action_fold (ls : list IInventoryLog.t) (m : gmap string nat) k :
  foldl (λ (actionCount : gmap string nat) l,
           let k := Action_string (IInventoryLog.action l) in
           <[k := (default 0 (actionCount !! k) + 1)%nat]> actionCount) m ls !! k
  = let c := length (filter (λ e, Action_string (IInventoryLog.action e) = k) ls) in
    if decide (c = 0) then m !! k else Some (default 0 (m !! k) + c).
Proof.
  revert m. induction ls as [| e ls IH]; intros m; [done |].
  cbn [foldl]. rewrite IH. cbn zeta. rewrite filter_cons.
  destruct (decide (Action_string (IInventoryLog.action e) = k)) as [-> | Hne].
  - rewrite lookup_insert_eq. cbn -[filter].
    repeat case_decide; try lia; f_equal; lia.
  - rewrite lookup_insert_ne by done. done.
Qed.

(** X12. [getTotalMovementsByAction] maps each action to the number of
    entries of the log that carry it, an action that no entry carries having
    no key at all; the log is left as it is. *)
Theorem getTotalMovementsByAction_counts a w :
  let '(actionCount, w') := MockInventoryLogService.getTotalMovementsByAction w in
  let n := length (filter (λ e, IInventoryLog.action e = a) (logs w)) in
  w' = w
  ∧ actionCount !! Action_string a = (if decide (n = 0) then None else Some n).
Proof.
  cbn -[filter]. split; [done |]. rewrite count_by_action_fold. cbn zeta.
  rewrite lookup_empty. cbn [default].
  assert (filter (λ e, Action_string (IInventoryLog.action e) = Action_string a) (logs w)
          = filter (λ e, IInventoryLog.action e = a) (logs w)) as ->; [| done].
  apply list_filter_iff. intros e. split; [apply Action_string_inj | by intros ->].
Qed.

(** X13. The identifier of a log entry is the reading of the clock taken
    when it is created: two entries created at any two moments have the
    same identifier exactly when the two readings agree. *)
Theorem log_entries_share_id_iff_same_millisecond d1 w1 d2 w2 :
  IInventoryLog._id (MockInventoryLogService.create d1 w1).1
    = IInventoryLog._id (MockInventoryLogService.create d2 w2).1
  ↔ clock w1 (reads w1) = clock w2 (reads w2).
Proof.
  rewrite !AuditLog.log_create_run. cbn -[pretty]. split.
  - intros H. apply (inj (String.app "log_")) in H. by apply (inj pretty) in H.
  - by intros ->.
Qed.

(** *** What the schemas let through *)

Lemma not_NaN_is_number a : Num.isNaN a = false → Prim2SF a ≠ S754_nan.
Proof.
  unfold Num.isNaN. rewrite FloatAxioms.eqb_spec. intros H Hnan.
  rewrite Hnan in H. done.
Qed.

(** Of two numbers, neither of them [NaN], the first is greater than the
    second or the second is at least the first. *)
Lemma not_gt_is_ge a b :
  Num.isNaN a = false → Num.isNaN b = false → Num.gt a b = false → Num.ge b a = true.
Proof.
  intros Ha%not_NaN_is_number Hb%not_NaN_is_number. unfold Num.gt, Num.ge.
  rewrite FloatAxioms.ltb_spec, FloatAxioms.leb_spec. unfold SFltb, SFleb.
  rewrite (NumFacts.SFcompare_antisym (Prim2SF a) (Prim2SF b)).
  destruct (Prim2SF a) as [[]|[]| |[] m e], (Prim2SF b) as [[]|[]| |[] m' e'];
    try done; cbn; by repeat case_match.
Qed.

Section Schemas.

Variable numberOfString : string → option number.

Local Abbreviation updateStockSchema := (updateStockSchema numberOfString).
Local Abbreviation productSchema := (productSchema numberOfString).
Local Abbreviation updateProductSchema := (updateProductSchema numberOfString).
Local Abbreviation Joi_number_min0 := (Joi_number_min0 numberOfString).

(** What [Joi.number().min(0)] lets through lies between zero and
    [MAX_SAFE_INTEGER]. *)
Lemma Joi_number_min0_range v x :
  Joi_number_min0 v = Some x →
  Num.ge x 0 = true ∧ Num.ge Num.MAX_SAFE_INTEGER x = true.
Proof.
  intros Hx. split; [by eapply Joi_number_min0_ge |].
  unfold Joi_number_min0 in Hx.
  destruct (Joi_number_coerce numberOfString v) as [y|]; [| done]. cbn in Hx.
  destruct (Num.isNaN y) eqn:Hnan; [done |].
  destruct (Num.eq y infinity || Num.eq y neg_infinity); [done |].
  destruct (Num.gt y Num.MAX_SAFE_INTEGER) eqn:Hgt; [done |]. cbn in Hx.
  destruct (Num.lt y Num.MIN_SAFE_INTEGER); [done |].
  destruct (Num.eq y 0).
  - destruct (Num.ge 0 0); [| done]. by injection Hx as <-.
  - destruct (Num.ge y 0); [| done]. injection Hx as <-.
    by apply not_gt_is_ge.
Qed.

Lemma required_Joi_number_min0_range field x :
  required Joi_number_min0 field = Some x →
  Num.ge x 0 = true ∧ Num.ge Num.MAX_SAFE_INTEGER x = true.
Proof. destruct field as [v|]; [| done]. apply Joi_number_min0_range. Qed.

Lemma optional_Joi_number_min0_range field x :
  optional Joi_number_min0 field = Some (Some x) →
  Num.ge x 0 = true ∧ Num.ge Num.MAX_SAFE_INTEGER x = true.
Proof.
  destruct field as [v|]; cbn; [| done].
  destruct (Joi_number_min0 v) as [y|] eqn:Hy; cbn; [| done].
  intros [= <-]. by eapply Joi_number_min0_range.
Qed.

(** X16. A number that one of the three schemas lets through lies between
    zero and [MAX_SAFE_INTEGER], and so is neither [NaN] nor infinite: the
    stock of [updateStockSchema]; the price, the stock and the minimum stock
    of [productSchema]; the price, the stock and the minimum stock of
    [updateProductSchema], where they are given. *)
Theorem validated_numbers_are_in_safe_range (o : gmap string JsValue) :
  (∀ value, updateStockSchema o = Some value →
     Num.ge (stock value) 0 = true
     ∧ Num.ge Num.MAX_SAFE_INTEGER (stock value) = true)
  ∧ (∀ value, productSchema o = Some value →
       (Num.ge (ProductData.price value) 0 = true
        ∧ Num.ge Num.MAX_SAFE_INTEGER (ProductData.price value) = true)
       ∧ (Num.ge (ProductData.stock value) 0 = true
          ∧ Num.ge Num.MAX_SAFE_INTEGER (ProductData.stock value) = true)
       ∧ ∀ x, ProductData.minStock value = Some x →
              Num.ge x 0 = true ∧ Num.ge Num.MAX_SAFE_INTEGER x = true)
  ∧ (∀ value x, updateProductSchema o = Some value →
       ProductPatch.price value = Some x ∨ ProductPatch.stock value = Some x
         ∨ ProductPatch.minStock value = Some x →
       Num.ge x 0 = true ∧ Num.ge Num.MAX_SAFE_INTEGER x = true).
Proof.
  split_and!.
  - intros value Hv. unfold updateStockSchema in Hv.
    destruct (only_keys _ _); [| done].
    destruct (required Joi_number_min0 (o !! "stock")) as [x|] eqn:Hx; [| done].
    cbn in Hv. destruct (optional _ _); [| done]. cbn in Hv.
    injection Hv as <-. cbn. by eapply required_Joi_number_min0_range.
  - intros value Hv. unfold productSchema in Hv.
    destruct (only_keys _ _); [| done].
    destruct (required Joi_string (o !! "name")); [| done].
    destruct (required Joi_string (o !! "sku")); [| done]. cbn in Hv.
    destruct (required Joi_number_min0 (o !! "price")) as [xp|] eqn:Hxp; [| done].
    destruct (required Joi_string (o !! "category")); [| done]. cbn in Hv.
    destruct (required Joi_number_min0 (o !! "stock")) as [xs|] eqn:Hxs; [| done].
    destruct (optional Joi_number_min0 (o !! "minStock")) as [xm|] eqn:Hxm; [| done].
    cbn in Hv.
    destruct (optional Joi_string (o !! "description")); [| done].
    destruct (optional Joi_string (o !! "warehouseId")); [| done].
    cbn in Hv. injection Hv as <-. cbn.
    split_and!; try by eapply required_Joi_number_min0_range.
    intros x ->. by eapply optional_Joi_number_min0_range.
  - intros value x Hv. unfold updateProductSchema in Hv.
    destruct (only_keys _ _); [| done].
    destruct (optional Joi_string (o !! "name")); [| done].
    destruct (optional Joi_string (o !! "sku")); [| done]. cbn in Hv.
    destruct (optional Joi_number_min0 (o !! "price")) as [xp|] eqn:Hxp; [| done].
    destruct (optional Joi_string (o !! "category")); [| done]. cbn in Hv.
    destruct (optional Joi_number_min0 (o !! "stock")) as [xs|] eqn:Hxs; [| done].
    destruct (optional Joi_number_min0 (o !! "minStock")) as [xm|] eqn:Hxm; [| done].
    cbn in Hv.
    destruct (optional Joi_string (o !! "description")); [| done].
    destruct (optional Joi_string (o !! "warehouseId")); [| done].
    cbn in Hv. injection Hv as <-. cbn.
    intros [-> | [-> | ->]]; by eapply optional_Joi_number_min0_range.
Qed.

(** *** The routes of the methods that read [this] *)

(** X26. No [PATCH /api/v1/inventory/:id] and no [POST /api/v1/products]
    changes the state, and none is answered with an updated stock or a
    created product. The request of a user below the required role (manager
    for the stock, admin for the product) is answered 403, and every other
    one 500 'Internal server error', whatever its identifier and its body:
    the routes call [updateStock] and [createProduct] without a receiver. *)
Theorem patch_and_post_are_answered_500 req w :
  ((PATCH_inventory numberOfString req w).2 = w
   ∧ (POST_products numberOfString req w).2 = w)
  ∧ (∀ u, user req = Some u →
       (PATCH_inventory numberOfString req w).1
         = (if AuthUtils.hasRole (role u) MANAGER then Handled InternalError
            else Refused 403 "Insufficient permissions")
       ∧ (POST_products numberOfString req w).1
           = (if AuthUtils.hasRole (role u) ADMIN then Handled InternalError
              else Refused 403 "Insufficient permissions"))
  ∧ InventoryController_updateStock numberOfString ThisUndefined req w
      = (InternalError, w)
  ∧ ProductController_createProduct numberOfString ThisUndefined req w
      = (InternalError, w).
Proof.
  unfold PATCH_inventory, POST_products, route, AuthMiddleware.requireAdmin,
    AuthMiddleware.requireManagerOrAdmin, AuthMiddleware.authorize,
    AuthMiddleware.authorizeAny.
  destruct (user req) as [u|]; [| by split_and!].
  split_and!; try done.
  - by destruct (role u).
  - by destruct (role u).
  - intros u' [= <-]. by destruct (role u).
Qed.

End Schemas.

(** *** Writing and reading a stock *)

Lemma findLowStock_run w :
  MockProductService.findLowStock w
    = (List.filter MockProductService.isLowStock (products w), w).
Proof. reflexivity. Qed.

(** Replacing an element that does not satisfy [P] by another that does not
    changes nothing in what [find] returns. *)
Lemma list_find_insert_neither {A} (P : A → Prop) `{∀ x, Decision (P x)}
    (l : list A) i x y :
  l !! i = Some y → ¬ P y → ¬ P x → list_find P (<[i := x]> l) = list_find P l.
Proof.
  revert i. induction l as [| z l IH]; intros i Hi Hy Hx; [done |].
  destruct i as [| i]; simpl in *.
  - injection Hi as ->. by rewrite !decide_False by done.
  - destruct (decide (P z)); [done |]. by rewrite (IH i).
Qed.

(** X27. [MockProductService.updateStock] answers [null] exactly when
    [findById] finds no product for the identifier, and then leaves the
    state as it is. Otherwise it answers with the product [findById] found,
    its stock replaced by the new one and its update date by the reading of
    the clock; that is the product [findById] returns for the identifier
    afterwards, and it is among the low-stock products exactly when the new
    stock is at most its minimum stock, a product without minimum stock
    counting as having the minimum 0. What [findById] returns for any other
    identifier, the number of products and the log stay as they are. *)
Theorem updateStock_then_findById id' newStock w :
  let '(r, w') := MockProductService.updateStock id' newStock w in
  logs w' = logs w
  ∧ length (products w') = length (products w)
  ∧ (∀ other, other ≠ id' →
       (MockProductService.findById other w').1
         = (MockProductService.findById other w).1)
  ∧ match r with
    | None => w' = w ∧ (MockProductService.findById id' w).1 = None
    | Some p' =>
        ∃ p, (MockProductService.findById id' w).1 = Some p
             ∧ p' = MockProductService.set_stock p newStock (clock w (reads w))
             ∧ IProduct.stock p' = newStock
             ∧ (MockProductService.findById id' w').1 = Some p'
             ∧ (p' ∈ (MockProductService.findLowStock w').1
                ↔ Num.ge (number_or (IProduct.minStock p) 0) newStock = true)
    end.
Proof.
  rewrite !ProductStore.findById_run. cbn -[list_find].
  destruct (list_find (λ p, IProduct._id p = id') (products w)) as [[i p]|] eqn:Hfind.
  - rewrite (ProductStore.updateStock_found _ _ _ _ _ Hfind). cbn -[list_find].
    pose proof Hfind as (Hi & Hp & _)%list_find_Some.
    split_and!; [done | by rewrite length_insert | |].
    + intros other Hother. rewrite !ProductStore.findById_run. cbn -[list_find].
      rewrite (list_find_insert_neither _ _ i _ p); [done | done | |]; cbn; congruence.
    + exists p. split_and!; [done | done | done | |].
      * rewrite ProductStore.findById_run. cbn -[list_find].
        by rewrite (ProductStore.find_after_set_stock _ _ _ _ _ _ Hfind).
      * rewrite findLowStock_run. cbn [fst products].
        rewrite list_elem_of_In, filter_In, <- list_elem_of_In.
        unfold MockProductService.isLowStock. cbn.
        split; [by intros [_ ?] |]. intros Hlow. split; [| done].
        apply list_elem_of_insert. by eapply lookup_lt_Some.
  - by rewrite (ProductStore.updateStock_missing _ _ _ Hfind).
Qed.

(** X27 at a stock of 3.5 for the laptop, whose minimum stock is 10. *)
Lemma updateStock_then_findById_at_world0 :
  ∃ p', (MockProductService.updateStock "prod_001" 3.5 world0).1 = Some p'
        ∧ (MockProductService.findById "prod_001"
             (MockProductService.updateStock "prod_001" 3.5 world0).2).1 = Some p'
        ∧ IProduct.stock p' = 3.5%float
        ∧ p' ∈ (MockProductService.findLowStock
                  (MockProductService.updateStock "prod_001" 3.5 world0).2).1.
Proof.
  pose proof (updateStock_then_findById "prod_001" 3.5 world0) as H.
  destruct (MockProductService.updateStock "prod_001" 3.5 world0) as [[p'|] w'] eqn:Hrun;
    [| by vm_compute in Hrun].
  destruct H as (_ & _ & _ & p & Hp & -> & Hstock & Hfound & Hlow).
  eexists. split_and!; [done | exact Hfound | exact Hstock |].
  apply Hlow. vm_compute in Hp. injection Hp as <-. by vm_compute.
Defined.

(** *** Pages *)









(** *** Writing and finding products *)

(** X23. [MockProductService.updateStock] does what [update] does when it is
    given the stock alone. *)
Theorem updateStock_is_update_of_stock id' newStock w :
  MockProductService.updateStock id' newStock w
  = MockProductService.update id'
      {| ProductPatch._id := None; ProductPatch.name := None;
         ProductPatch.sku := None; ProductPatch.price := None;
         ProductPatch.category := None; ProductPatch.stock := Some newStock;
         ProductPatch.minStock := None; ProductPatch.description := None;
         ProductPatch.warehouseId := None; ProductPatch.createdAt := None;
         ProductPatch.updatedAt := None |} w.
Proof.
  destruct (list_find (λ p, IProduct._id p = id') (products w)) as [[i p]|] eqn:Hfind.
  - by rewrite (ProductStore.updateStock_found _ _ _ _ _ Hfind),
      (StoreFacts.update_found _ _ _ _ _ Hfind).
  - by rewrite (ProductStore.updateStock_missing _ _ _ Hfind),
      (StoreFacts.update_missing _ _ _ Hfind).
Qed.

(** X24. A product created while no product of the store has the identifier
    the clock gives, is the product that [findById] returns for the
    identifier it was given. *)
Theorem create_then_findById d w :
  (∀ q, q ∈ products w → IProduct._id q ≠ "prod_" +:+ pretty (clock w (reads w))) →
  let '(p, w') := MockProductService.create d w in
  (MockProductService.findById (IProduct._id p) w').1 = Some p.
Proof.
  intros Hfresh. rewrite ProductStore.product_create_run.
  cbn -[list_find pretty]. rewrite ProductStore.findById_run.
  cbn -[list_find pretty]. rewrite list_find_app_r.
  - cbn -[pretty]. by rewrite decide_True.
  - apply list_find_None, Forall_forall. exact Hfresh.
Qed.

(** X24 at the store as it is initialised. *)
Lemma create_then_findById_at_world0 :
  (MockProductService.findById "prod_1760000000000"
     (MockProductService.create keyboard world0).2).1
  = Some (MockProductService.create keyboard world0).1.
Proof.
  pose proof (create_then_findById keyboard world0) as H.
  destruct (MockProductService.create keyboard world0) as [p w'] eqn:Hrun.
  vm_compute in Hrun. injection Hrun as <- <-.
  apply H. apply Forall_forall. by repeat constructor.
Defined.

Lemma same_sku_same_index (ps : list IProduct.t) i j p z :
  NoDup (IProduct.sku <$> ps) → ps !! i = Some p → ps !! j = Some z →
  IProduct.sku z = IProduct.sku p → j = i.
Proof.
  intros Hnodup Hi Hj Hsku.
  eapply (NoDup_lookup _ _ _ (IProduct.sku p) Hnodup); rewrite list_lookup_fmap.
  - by rewrite Hj; cbn; rewrite Hsku.
  - by rewrite Hi.
Qed.

(** X28. The SKUs of the store being pairwise distinct, take a product of
    the store and update data whose SKU, if it has one, is the SKU of the
    product or one that no product has. Then [MockProductService.update]
    answers with the product that [findBySku] returns afterwards for the SKU
    it now has, the one of the data or else its old one; and when the update
    gave it another SKU, no product is found under the old one. *)
Theorem update_then_findBySku id' updateData w i p :
  NoDup (IProduct.sku <$> products w) →
  list_find (λ p, IProduct._id p = id') (products w) = Some (i, p) →
  (∀ s, ProductPatch.sku updateData = Some s → s ≠ IProduct.sku p →
        ∀ q, q ∈ products w → IProduct.sku q ≠ s) →
  let '(r, w') := MockProductService.update id' updateData w in
  ∃ p', r = Some p'
        ∧ IProduct.sku p'
            = default (IProduct.sku p) (ProductPatch.sku updateData)
        ∧ (MockProductService.findBySku (IProduct.sku p') w').1 = Some p'
        ∧ (IProduct.sku p' ≠ IProduct.sku p →
           (MockProductService.findBySku (IProduct.sku p) w').1 = None).
Proof.
  intros Hnodup Hfind Hfresh.
  rewrite (StoreFacts.update_found _ _ _ _ _ Hfind).
  apply list_find_Some in Hfind as (Hi & _ & _).
  pose proof (lookup_lt_Some _ _ _ Hi) as Hlen.
  set (p' := MockProductService.merge p updateData (clock w (reads w))).
  assert (∀ j z, products w !! j = Some z → j ≠ i →
                 IProduct.sku z ≠ IProduct.sku p') as Hothers.
  { intros j z Hj Hji Hsku. subst p'. cbn in Hsku.
    destruct (ProductPatch.sku updateData) as [s|] eqn:Hs; cbn in Hsku.
    - destruct (decide (s = IProduct.sku p)) as [-> | Hdiff].
      + by apply Hji, (same_sku_same_index (products w) i j p z).
      + apply (Hfresh s eq_refl Hdiff z); [| done].
        by eapply list_elem_of_lookup_2.
    - by apply Hji, (same_sku_same_index (products w) i j p z). }
  exists p'. split_and!; [done | done | |].
  - rewrite ProductStore.findBySku_run. cbn -[list_find].
    rewrite (proj2 (list_find_insert_Some _ _ i i p' p')); [done |].
    right; left. split_and!; [done | done | done | done |].
    intros j z Hj Hlt. apply (Hothers j z Hj). lia.
  - intros Hrenamed. rewrite ProductStore.findBySku_run. cbn -[list_find].
    rewrite (proj2 (list_find_None _ _)); [done |].
    apply Forall_lookup. intros j z Hj Hsku.
    destruct (decide (j = i)) as [-> | Hne].
    + rewrite list_lookup_insert_eq in Hj by done. injection Hj as <-. done.
    + rewrite list_lookup_insert_ne in Hj by done.
      by apply Hne, (same_sku_same_index (products w) i j p z).
Qed.

(** X28 at an update that gives the mouse the SKU WM-2026. *)
Lemma update_then_findBySku_at_world0 :
  ∃ p', (MockProductService.update "prod_002" (renameTo "WM-2026") world0).1
          = Some p'
        ∧ (MockProductService.findBySku "WM-2026"
             (MockProductService.update "prod_002" (renameTo "WM-2026") world0).2).1
            = Some p'
        ∧ (MockProductService.findBySku "WM-2025"
             (MockProductService.update "prod_002" (renameTo "WM-2026") world0).2).1
            = None.
Proof.
  pose proof (update_then_findBySku "prod_002" (renameTo "WM-2026") world0 1
                (MockProductService.seed "prod_002" "Wireless Mouse" "WM-2025" 25.99
                   "Electronics" 3 15 "Ergonomic wireless mouse" "wh_main")
                initial_skus_distinct) as H.
  destruct (MockProductService.update "prod_002" (renameTo "WM-2026") world0)
    as [r w'].
  destruct H as (p' & -> & Hsku & Hnew & Hold).
  - by vm_compute.
  - intros s [= <-] _ q Hq. revert q Hq. apply Forall_forall.
    vm_compute. by repeat constructor.
  - exists p'. change (IProduct.sku p' = "WM-2026") in Hsku.
    rewrite Hsku in Hnew, Hold.
    split_and!; [done | exact Hnew |]. apply Hold. done.
Defined.
